(** * shadPS4: surface/view translation layer

    A shallow embedding of
      - [video_core/renderer_vulkan/liverpool_to_vk.h]  ([PromoteFormatToDepth])
      - [video_core/texture_cache/image_view.cpp]       ([ConvertImageViewType],
        the three [ImageViewInfo] constructors and the [ImageView] constructor)
    together with the properties of the view descriptor builder and of view
    realization.

    Conventions.
      - [u32] fields are integers of [Z]; every assignment to a [u32] field
        is written with its reduction modulo [2^32].
      - Vulkan enumerations that the code compares by value ([vk::Format],
        the flag bits) are their numeric values from the Vulkan headers.
      - [UNREACHABLE()] and a failed [ASSERT_MSG] end the process; a function
        that may reach one returns an [Outcome]. *)

From Stdlib Require Import ZArith Lia Bool List.
Import ListNotations.
Open Scope Z_scope.

(** ** Outcomes of a call *)

(** Why the process stopped. *)
Inductive Fatal : Type :=
| UnreachableCode      (* UNREACHABLE() *)
| AssertionFailed.     (* ASSERT_MSG(cond, ...) with cond false *)

(** A call either returns or ends the process: the translation layer has
    no error value and raises nothing. *)
Inductive Outcome (A : Type) : Type :=
| Returned (a : A)          (* the call returns [a] *)
| Terminated (f : Fatal).   (* the process is terminated inside the call *)

Arguments Returned {A} a.
Arguments Terminated {A} f.

Definition bind {A B : Type} (o : Outcome A) (k : A -> Outcome B) : Outcome B :=
  match o with
  | Returned a => k a
  | Terminated f => Terminated f
  end.

Declare Scope outcome_scope.
Delimit Scope outcome_scope with outcome.
Notation "x <- o ;; k" := (bind o (fun x => k))
  (at level 61, o at next level, right associativity) : outcome_scope.
Open Scope outcome_scope.

(** The call ended the process, and with it the frame and the session. *)
Definition is_terminated {A : Type} (o : Outcome A) : bool :=
  match o with Terminated _ => true | Returned _ => false end.

(** ** Unsigned 32-bit fields *)

Definition u32 (z : Z) : Z := z mod 2 ^ 32.

(** Unsigned 16-bit and 64-bit values. *)
Definition u16 (z : Z) : Z := z mod 2 ^ 16.
Definition u64 (z : Z) : Z := z mod 2 ^ 64.

(** [std::min] on two [u32] values. *)
Definition std_min (a b : Z) : Z := if b <? a then b else a.

(** ** The graphics API's enumerations *)

Module vk.

(** [vk::Format], by value. *)
Definition Format : Type := Z.
Definition eR8Unorm        : Format := 9.
Definition eR8Uint         : Format := 13.
Definition eR8G8B8A8Unorm  : Format := 37.
Definition eR8G8B8A8Srgb   : Format := 43.
Definition eR16Unorm       : Format := 70.
Definition eR32Uint        : Format := 98.
Definition eR32Sfloat      : Format := 100.
Definition eD16Unorm       : Format := 124.
Definition eD32Sfloat      : Format := 126.
Definition eD32SfloatS8Uint : Format := 130.

Inductive ImageViewType : Type :=
| e1D | e2D | e3D | eCube | e1DArray | e2DArray | eCubeArray.

Definition ImageViewType_eqb (a b : ImageViewType) : bool :=
  match a, b with
  | e1D, e1D | e2D, e2D | e3D, e3D | eCube, eCube
  | e1DArray, e1DArray | e2DArray, e2DArray | eCubeArray, eCubeArray => true
  | _, _ => false
  end.

(** [vk::ImageAspectFlags] and its bits. *)
Definition ImageAspectFlags : Type := Z.
Definition ImageAspect_eColor   : ImageAspectFlags := 1.
Definition ImageAspect_eDepth   : ImageAspectFlags := 2.
Definition ImageAspect_eStencil : ImageAspectFlags := 4.

(** [vk::ImageUsageFlags] and the storage bit. *)
Definition ImageUsageFlags : Type := Z.
Definition ImageUsage_eStorage : ImageUsageFlags := 8.

Definition FormatFeatureFlags2 : Type := Z.

(** [vk::Result]. *)
Definition Result : Type := Z.
Definition eSuccess : Result := 0.

(** [vk::ComponentMapping]: the four swizzles r, g, b, a. *)
Definition ComponentMapping : Type := (Z * Z * Z * Z)%type.
Definition eIdentity : Z := 0.

(** [a & b] used as a condition. *)
Definition has_flag (a b : Z) : bool := negb (Z.land a b =? 0).

End vk.

(** ** The console GPU's side *)

Module AmdGpu.

(** [AmdGpu::ImageType].  The sources name eight enumerators; a raw value
    of the 4-bit field that is none of them is [ImageTypeOther]. *)
Inductive ImageType : Type :=
| Color1D | Color2D | Color3D | Cube
| Color1DArray | Color2DArray | Color2DMsaa | Color2DMsaaArray
| ImageTypeOther (raw : Z).

Definition ImageType_eqb (a b : ImageType) : bool :=
  match a, b with
  | Color1D, Color1D | Color2D, Color2D | Color3D, Color3D | Cube, Cube
  | Color1DArray, Color1DArray | Color2DArray, Color2DArray
  | Color2DMsaa, Color2DMsaa | Color2DMsaaArray, Color2DMsaaArray => true
  | ImageTypeOther x, ImageTypeOther y => x =? y
  | _, _ => false
  end.

(** [AmdGpu::NumberFormat]: the two enumerators the builder looks at, and
    the rest by raw value. *)
Inductive NumberFormat : Type :=
| Unorm | Srgb | NumberFormatOther (raw : Z).

Definition NumberFormat_eqb (a b : NumberFormat) : bool :=
  match a, b with
  | Unorm, Unorm | Srgb, Srgb => true
  | NumberFormatOther x, NumberFormatOther y => x =? y
  | _, _ => false
  end.

Definition DataFormat : Type := Z.
Definition CompMapping : Type := Z.

(** [AmdGpu::Image], the texture resource descriptor (T#): what its
    accessors and the fields read by the builder give. *)
Record Image : Type := {
  GetDataFmt : DataFormat;
  GetNumberFmt : NumberFormat;
  GetType : ImageType;
  base_level : Z;
  last_level : Z;
  base_array : Z;
  last_array : Z;
  DstSelect : CompMapping
}.

End AmdGpu.

(** ** liverpool_to_vk.h *)

Module LiverpoolToVK.
Import vk.

Definition PromoteFormatToDepth (fmt : Format) : Outcome Format :=
  if fmt =? eR32Sfloat then Returned eD32Sfloat
  else if fmt =? eR16Unorm then Returned eD16Unorm
  else if fmt =? eR8G8B8A8Unorm then Returned eR32Uint
  else if fmt =? eR8G8B8A8Srgb then Returned eR32Uint
  else Terminated UnreachableCode.

(** *** Quad lists to triangle lists *)

(** A run of one of the two index loops, with a bound on its iterations:
    it finishes with what it wrote, or it is still running when the bound
    is reached, or it read outside its input. *)
Inductive Run (A : Type) : Type :=
| Done (a : A)
| OutOfFuel
| OutOfBounds.

Arguments Done {A} a.
Arguments OutOfFuel {A}.
Arguments OutOfBounds {A}.

Definition NumVerticesPerQuad : Z := 4.

(** The loop of [EmitQuadToTriangleListIndices] from counter value [i]
    (a [u16]); the result is what [*out_data++] writes, in order. *)
Fixpoint EmitQuadToTriangleListIndices_from (fuel : nat) (i : Z)
    (num_vertices : Z) : Run (list Z) :=
  match fuel with
  | O => OutOfFuel
  | S fuel' =>
      if i <? num_vertices then
        match EmitQuadToTriangleListIndices_from fuel'
                (u16 (i + NumVerticesPerQuad)) num_vertices with
        | Done rest =>
            Done (u16 i :: u16 (i + 1) :: u16 (i + 2)
                  :: u16 i :: u16 (i + 2) :: u16 (i + 3) :: rest)
        | r => r
        end
      else Done []
  end.

Definition EmitQuadToTriangleListIndices (fuel : nat) (num_vertices : Z)
    : Run (list Z) :=
  EmitQuadToTriangleListIndices_from fuel 0 num_vertices.

(** [in_data[k]]; [None] outside the input. *)
Definition in_data_at (in_data : list Z) (k : Z) : option Z :=
  if k <? 0 then None else nth_error in_data (Z.to_nat k).

(** The loop of [ConvertQuadToTriangleListIndices<T>] from counter value
    [i]; the indices of type [T] are integers. *)
Fixpoint ConvertQuadToTriangleListIndices_from (fuel : nat) (in_data : list Z)
    (i : Z) (num_vertices : Z) : Run (list Z) :=
  match fuel with
  | O => OutOfFuel
  | S fuel' =>
      if i <? num_vertices then
        match in_data_at in_data i, in_data_at in_data (i + 1),
              in_data_at in_data (i + 2), in_data_at in_data (i + 3) with
        | Some a, Some b, Some c, Some d =>
            match ConvertQuadToTriangleListIndices_from fuel' in_data
                    (u16 (i + NumVerticesPerQuad)) num_vertices with
            | Done rest => Done (a :: b :: c :: a :: c :: d :: rest)
            | r => r
            end
        | _, _, _, _ => OutOfBounds
        end
      else Done []
  end.

Definition ConvertQuadToTriangleListIndices (fuel : nat) (in_data : list Z)
    (num_vertices : Z) : Run (list Z) :=
  ConvertQuadToTriangleListIndices_from fuel in_data 0 num_vertices.

End LiverpoolToVK.

(** ** Collaborators and descriptor types *)

Module Shader.

(** [Shader::ImageResource]: how a shader binds the image. *)
Record ImageResource : Type := {
  is_depth : bool;
  is_array : bool;
  other_members : Z      (* the members the builder does not read itself *)
}.

End Shader.

Module Liverpool.

Definition SwapMode : Type := Z.
Definition ZFormat : Type := Z.
Definition StencilFormat : Type := Z.

Module ColorBuffer.
(** [Liverpool::ColorBuffer]: [info.format], [GetNumberFmt()],
    [info.comp_swap], [view.slice_start] and [NumSlices()]. *)
Record t : Type := {
  info_format : AmdGpu.DataFormat;
  GetNumberFmt : AmdGpu.NumberFormat;
  info_comp_swap : SwapMode;
  view_slice_start : Z;
  NumSlices : Z
}.
End ColorBuffer.

Module DepthBuffer.
Record t : Type := {
  z_info_format : ZFormat;
  stencil_info_format : StencilFormat
}.
End DepthBuffer.

Module DepthView.
Record t : Type := {
  slice_start : Z;
  NumSlices : Z
}.
End DepthView.

Module DepthControl.
Record t : Type := {
  depth_write_enable : bool
}.
End DepthControl.

End Liverpool.

(** ** image_view.cpp *)

Module VideoCore.
Import vk AmdGpu.

Definition Handle : Type := Z.

Record SubresourceBase : Type := { level : Z; layer : Z }.
Record SubresourceExtent : Type := { levels : Z; layers : Z }.
Record SubresourceRange : Type := {
  base : SubresourceBase;
  extent : SubresourceExtent
}.

(** The view descriptor. *)
Record ImageViewInfo : Type := {
  type : ImageViewType;
  format : Format;
  range : SubresourceRange;
  mapping : ComponentMapping;
  is_storage : bool
}.

(** The member initialisers of [ImageViewInfo] are in [image_view.h], which
    is not among the sources; a constructor that leaves a member alone
    leaves it at the value below. *)

(** Modelled from the spec: the initial [range.extent.levels]; the color and
    depth target builders give [mipLevelCount = 1]. *)
Definition default_levels : Z := 1.

(** Modelled from the spec: the initial [range.base.level]; a target view
    starts at the first mip level. *)
Definition default_level : Z := 0.

(** Modelled from the spec: the initial [is_storage]; the color target
    builder gives [isStorage = false]. *)
Definition default_is_storage : bool := false.

(** Modelled from the spec: the initial [mapping]; a storage view uses the
    identity mapping. *)
Definition default_mapping : ComponentMapping :=
  (eIdentity, eIdentity, eIdentity, eIdentity).

(** [VideoCore::Image], the physical image, as far as a view reads it. *)
Record Image : Type := {
  image : Handle;
  usage_flags : ImageUsageFlags;
  aspect_mask : ImageAspectFlags;
  info_pixel_format : Format;
  format_features : FormatFeatureFlags2
}.

(** [vk::ImageViewCreateInfo], with the usage of the chained
    [vk::ImageViewUsageCreateInfo]. *)
Record ImageViewCreateInfo : Type := {
  pNext_usage : ImageUsageFlags;
  ci_image : Handle;
  viewType : ImageViewType;
  ci_format : Format;
  components : ComponentMapping;
  aspectMask : ImageAspectFlags;
  baseMipLevel : Z;
  levelCount : Z;
  baseArrayLayer : Z;
  layerCount : Z
}.


(** The functions the two files call and do not define: the format tables
    of [liverpool_to_vk.cpp], the accessors of the resource descriptor and
    of the shader binding, and the device.  Those that the design lets
    stop on an unknown format return an [Outcome]. *)
Record Collaborators : Type := {
  SurfaceFormat : DataFormat -> NumberFormat -> Outcome Format;
  AdjustColorBufferFormat : Format -> Liverpool.SwapMode -> Format;
  DepthFormat : Liverpool.ZFormat -> Liverpool.StencilFormat -> Outcome Format;
  ComponentMapping_of : CompMapping -> ComponentMapping;
  GetBoundType : AmdGpu.Image -> ImageType;
  IsStorage : Shader.ImageResource -> AmdGpu.Image -> bool;
  GetSupportedFormat : Format -> FormatFeatureFlags2 -> Outcome Format;
  createImageViewUnique : ImageViewCreateInfo -> Result * Handle
}.

Definition ConvertImageViewType (type : ImageType) : Outcome ImageViewType :=
  match type with
  | Color1D => Returned e1D
  | Color1DArray => Returned e1DArray
  | Color2D | Color2DMsaa => Returned e2D
  | Cube => Returned eCube
  | Color2DArray => Returned e2DArray
  | Color3D => Returned e3D
  | _ => Terminated UnreachableCode
  end.

Section Builders.
Variable E : Collaborators.

(** [ImageViewInfo(const AmdGpu::Image&, const Shader::ImageResource&)] *)
Definition ImageViewInfo_Image (image : AmdGpu.Image)
    (desc : Shader.ImageResource) : Outcome ImageViewInfo :=
  let is_storage := IsStorage E desc image in
  let dfmt := GetDataFmt image in
  let nfmt := GetNumberFmt image in
  let nfmt := if is_storage && NumberFormat_eqb nfmt Srgb then Unorm else nfmt in
  format <- SurfaceFormat E dfmt nfmt ;;
  format <- (if Shader.is_depth desc
             then LiverpoolToVK.PromoteFormatToDepth format
             else Returned format) ;;
  let range_base_level := u32 (base_level image) in
  let range_base_layer := u32 (base_array image) in
  let range_extent_levels :=
    if ImageType_eqb (GetType image) Color2DMsaa
       || ImageType_eqb (GetType image) Color2DMsaaArray
    then 1
    else u32 (last_level image - base_level image + 1) in
  let range_extent_layers := u32 (last_array image - base_array image + 1) in
  type <- ConvertImageViewType (GetBoundType E image) ;;
  (* Adjust view type for arrays *)
  let '(type, range_extent_layers) :=
    if ImageViewType_eqb type eCube then
      if Shader.is_array desc then (eCubeArray, range_extent_layers)
      else (type, std_min range_extent_layers 6)
    else (type, range_extent_layers) in
  let range_extent_layers :=
    if ImageViewType_eqb type e3D && (1 <? range_extent_layers) then 1
    else range_extent_layers in
  let mapping :=
    if negb is_storage then ComponentMapping_of E (DstSelect image)
    else default_mapping in
  Returned {| type := type;
              format := format;
              range := {| base := {| level := range_base_level;
                                     layer := range_base_layer |};
                          extent := {| levels := range_extent_levels;
                                       layers := range_extent_layers |} |};
              mapping := mapping;
              is_storage := is_storage |}.

(** [ImageViewInfo(const AmdGpu::Liverpool::ColorBuffer&)] *)
Definition ImageViewInfo_ColorBuffer (col_buffer : Liverpool.ColorBuffer.t)
    : Outcome ImageViewInfo :=
  base_format <- SurfaceFormat E (Liverpool.ColorBuffer.info_format col_buffer)
                   (Liverpool.ColorBuffer.GetNumberFmt col_buffer) ;;
  let range_base_layer := u32 (Liverpool.ColorBuffer.view_slice_start col_buffer) in
  let range_extent_layers :=
    u32 (Liverpool.ColorBuffer.NumSlices col_buffer - range_base_layer) in
  let type := if 1 <? range_extent_layers then e2DArray else e2D in
  let format := AdjustColorBufferFormat E base_format
                  (Liverpool.ColorBuffer.info_comp_swap col_buffer) in
  Returned {| type := type;
              format := format;
              range := {| base := {| level := default_level;
                                     layer := range_base_layer |};
                          extent := {| levels := default_levels;
                                       layers := range_extent_layers |} |};
              mapping := default_mapping;
              is_storage := default_is_storage |}.

(** [ImageViewInfo(const DepthBuffer&, DepthView, DepthControl)] *)
Definition ImageViewInfo_DepthBuffer (depth_buffer : Liverpool.DepthBuffer.t)
    (view : Liverpool.DepthView.t) (ctl : Liverpool.DepthControl.t)
    : Outcome ImageViewInfo :=
  format <- DepthFormat E (Liverpool.DepthBuffer.z_info_format depth_buffer)
              (Liverpool.DepthBuffer.stencil_info_format depth_buffer) ;;
  let is_storage := Liverpool.DepthControl.depth_write_enable ctl in
  let range_base_layer := u32 (Liverpool.DepthView.slice_start view) in
  let range_extent_layers :=
    u32 (Liverpool.DepthView.NumSlices view - range_base_layer) in
  let type := if 1 <? range_extent_layers then e2DArray else e2D in
  Returned {| type := type;
              format := format;
              range := {| base := {| level := default_level;
                                     layer := range_base_layer |};
                          extent := {| levels := default_levels;
                                       layers := range_extent_layers |} |};
              mapping := default_mapping;
              is_storage := is_storage |}.

(** The locals [format] and [aspect] of the [ImageView] constructor after
    its two corrections. *)
Definition view_format_aspect (info : ImageViewInfo) (image : Image)
    : Format * ImageAspectFlags :=
  let format := format info in
  let aspect := aspect_mask image in
  let '(format, aspect) :=
    if has_flag (aspect_mask image) ImageAspect_eDepth
       && ((format =? eR32Sfloat) || (format =? eD32Sfloat)
           || (format =? eR16Unorm) || (format =? eD16Unorm))
    then (info_pixel_format image, ImageAspect_eDepth)
    else (format, aspect) in
  if has_flag (aspect_mask image) ImageAspect_eStencil
     && ((format =? eR8Uint) || (format =? eR8Unorm))
  then (info_pixel_format image, ImageAspect_eStencil)
  else (format, aspect).

(** The local [image_view_ci]. *)
Definition image_view_ci (info : ImageViewInfo) (image : Image)
    : Outcome ImageViewCreateInfo :=
  let usage := usage_flags image in
  let usage :=
    if negb (is_storage info) then Z.ldiff usage ImageUsage_eStorage
    else usage in
  let '(format, aspect) := view_format_aspect info image in
  supported <- GetSupportedFormat E format (format_features image) ;;
  Returned {| pNext_usage := usage;
              ci_image := VideoCore.image image;
              viewType := type info;
              ci_format := supported;
              components := mapping info;
              aspectMask := aspect;
              baseMipLevel := level (base (range info));
              levelCount := levels (extent (range info));
              baseArrayLayer := layer (base (range info));
              layerCount := layers (extent (range info)) |}.


End Builders.

End VideoCore.

(** ** Sample collaborators and descriptors

    A four-entry format table, a device that accepts every view and one
    that is out of host memory, and the descriptors of the scenarios. *)

Module Samples.
Import vk AmdGpu VideoCore.

Definition Format32 : DataFormat := 4.
Definition Format16 : DataFormat := 2.
Definition Format8_8_8_8 : DataFormat := 10.
Definition Float : NumberFormat := NumberFormatOther 7.

Definition table (d : DataFormat) (n : NumberFormat) : Outcome Format :=
  match n with
  | NumberFormatOther 7 =>
      if d =? Format32 then Returned eR32Sfloat else Terminated AssertionFailed
  | Unorm =>
      if d =? Format16 then Returned eR16Unorm
      else if d =? Format8_8_8_8 then Returned eR8G8B8A8Unorm
      else Terminated AssertionFailed
  | Srgb =>
      if d =? Format8_8_8_8 then Returned eR8G8B8A8Srgb
      else Terminated AssertionFailed
  | _ => Terminated AssertionFailed
  end.


(** The binding is a storage binding when the low bit of the remaining
    members (the written flag) is set. *)
Definition host : Collaborators := {|
  SurfaceFormat := table;
  AdjustColorBufferFormat := fun f _ => f;
  DepthFormat := fun _ _ => Returned eD32Sfloat;
  ComponentMapping_of := fun m => (m, m, m, m);
  GetBoundType := GetType;
  IsStorage := fun desc _ => Z.odd (Shader.other_members desc);
  GetSupportedFormat := fun f _ => Returned f;
  createImageViewUnique := fun ci => (eSuccess, 1 + ci_image ci)
|}.


Definition sampled : Shader.ImageResource :=
  {| Shader.is_depth := false; Shader.is_array := false; Shader.other_members := 0 |}.
Definition sampled_array : Shader.ImageResource :=
  {| Shader.is_depth := false; Shader.is_array := true; Shader.other_members := 0 |}.
Definition sampled_depth : Shader.ImageResource :=
  {| Shader.is_depth := true; Shader.is_array := false; Shader.other_members := 0 |}.

Definition texture (d : DataFormat) (n : NumberFormat) (t : ImageType)
    (bl ll ba la : Z) : AmdGpu.Image :=
  {| GetDataFmt := d; GetNumberFmt := n; GetType := t;
     base_level := bl; last_level := ll; base_array := ba; last_array := la;
     DstSelect := 0 |}.

(** Scenario C: a cube bound with twelve faces. *)
Definition cube_twelve : AmdGpu.Image :=
  texture Format8_8_8_8 Unorm Cube 0 0 0 11.
Definition srgb_2d : AmdGpu.Image :=
  texture Format8_8_8_8 Srgb Color2D 0 3 0 0.
Definition msaa_2d : AmdGpu.Image :=
  texture Format8_8_8_8 Unorm Color2DMsaa 0 5 0 0.
Definition msaa_2d_array : AmdGpu.Image :=
  texture Format8_8_8_8 Unorm Color2DMsaaArray 0 5 0 3.
Definition float_2d : AmdGpu.Image :=
  texture Format32 Float Color2D 0 0 0 0.

(** Scenario A. *)
Definition target_2_of_6 : Liverpool.ColorBuffer.t :=
  {| Liverpool.ColorBuffer.info_format := Format8_8_8_8;
     Liverpool.ColorBuffer.GetNumberFmt := Unorm;
     Liverpool.ColorBuffer.info_comp_swap := 0;
     Liverpool.ColorBuffer.view_slice_start := 2;
     Liverpool.ColorBuffer.NumSlices := 6 |}.
(** A color target whose first slice is one past its last. *)
Definition target_1_of_1 : Liverpool.ColorBuffer.t :=
  {| Liverpool.ColorBuffer.info_format := Format8_8_8_8;
     Liverpool.ColorBuffer.GetNumberFmt := Unorm;
     Liverpool.ColorBuffer.info_comp_swap := 0;
     Liverpool.ColorBuffer.view_slice_start := 1;
     Liverpool.ColorBuffer.NumSlices := 1 |}.

Definition depth_buffer : Liverpool.DepthBuffer.t :=
  {| Liverpool.DepthBuffer.z_info_format := 3;
     Liverpool.DepthBuffer.stencil_info_format := 0 |}.
Definition depth_view_0_of_1 : Liverpool.DepthView.t :=
  {| Liverpool.DepthView.slice_start := 0; Liverpool.DepthView.NumSlices := 1 |}.
Definition depth_ctl : Liverpool.DepthControl.t :=
  {| Liverpool.DepthControl.depth_write_enable := false |}.

Definition view_info (f : Format) : ImageViewInfo :=
  {| type := e2D; format := f;
     range := {| base := {| level := 0; layer := 0 |};
                 extent := {| levels := 1; layers := 1 |} |};
     mapping := default_mapping; is_storage := false |}.

(** A depth image allocated as D16, and a depth-stencil image allocated as
    D32S8. *)
Definition depth_image : Image :=
  {| image := 41; usage_flags := 0x24; aspect_mask := ImageAspect_eDepth;
     info_pixel_format := eD16Unorm; format_features := 0 |}.
Definition depth_stencil_image : Image :=
  {| image := 42; usage_flags := 0x24;
     aspect_mask := Z.lor ImageAspect_eDepth ImageAspect_eStencil;
     info_pixel_format := eD32SfloatS8Uint; format_features := 0 |}.

(** A 2D texture whose level range is [base_level = 2, last_level = 0]. *)
Definition levels_reversed : AmdGpu.Image :=
  texture Format8_8_8_8 Unorm Color2D 2 0 0 0.

(** A color target whose first slice is past its last. *)
Definition target_3_of_2 : Liverpool.ColorBuffer.t :=
  {| Liverpool.ColorBuffer.info_format := Format8_8_8_8;
     Liverpool.ColorBuffer.GetNumberFmt := Unorm;
     Liverpool.ColorBuffer.info_comp_swap := 0;
     Liverpool.ColorBuffer.view_slice_start := 3;
     Liverpool.ColorBuffer.NumSlices := 2 |}.

(** A host on which a multi-sample array is bound as a single multi-sample
    image. *)
Definition host_msaa_single : Collaborators := {|
  SurfaceFormat := table;
  AdjustColorBufferFormat := fun f _ => f;
  DepthFormat := fun _ _ => Returned eD32Sfloat;
  ComponentMapping_of := fun m => (m, m, m, m);
  GetBoundType := fun image =>
    match GetType image with
    | Color2DMsaaArray => Color2DMsaa
    | t => t
    end;
  IsStorage := fun desc _ => Z.odd (Shader.other_members desc);
  GetSupportedFormat := fun f _ => Returned f;
  createImageViewUnique := fun ci => (eSuccess, 1 + ci_image ci)
|}.

End Samples.

(** ** input/controller.cpp *)

Module Input.

(** [Input::State]: the members the integer paths of the controller read and
    write; [axes] is the array by index. *)
Record State : Type := {
  time : Z;
  buttonsState : Z;
  axes : Z -> Z;
  other_members : Z      (* touchpad, motion and orientation members *)
}.

(** [Input::GameController]; [m_states] and [m_private[...].obtained] are
    the two arrays of [MAX_STATES] entries, by index. *)
Record GameController : Type := {
  m_connected : bool;
  m_connected_count : Z;
  m_states_num : Z;
  m_first_state : Z;
  m_last_state : State;
  m_states : Z -> State;
  m_private_obtained : Z -> bool
}.

Definition array_set {A : Type} (a : Z -> A) (index : Z) (x : A) : Z -> A :=
  fun k => if k =? index then x else a k.

Section Controller.
(** [controller.h] and [pad.h] are not among the sources: the size of the
    ring, the value [State()], the two trigger axes and the two trigger
    button masks are parameters. *)
Variable MAX_STATES : Z.
Variable State_default : State.
Variables TriggerLeft TriggerRight : Z.
Variables L2 R2 : Z.

(** [GameController::GameController()], on the object as its member
    initialisers leave it. *)
Definition GameController_ctor (c : GameController) : GameController :=
  {| m_connected := m_connected c;
     m_connected_count := m_connected_count c;
     m_states_num := 0;
     m_first_state := m_first_state c;
     m_last_state := State_default;
     m_states := m_states c;
     m_private_obtained := m_private_obtained c |}.

Definition GetLastState (c : GameController) : State :=
  if m_states_num c =? 0 then m_last_state c
  else
    let last := u32 (m_first_state c + m_states_num c - 1) mod MAX_STATES in
    m_states c last.

Definition AddState (c : GameController) (state : State) : GameController :=
  let full := MAX_STATES <=? m_states_num c in
  let states_num := if full then u32 (MAX_STATES - 1) else m_states_num c in
  let first_state :=
    if full then u32 (m_first_state c + 1) mod MAX_STATES else m_first_state c in
  let index := u32 (first_state + states_num) mod MAX_STATES in
  {| m_connected := m_connected c;
     m_connected_count := m_connected_count c;
     m_states_num := u32 (states_num + 1);
     m_first_state := first_state;
     m_last_state := state;
     m_states := array_set (m_states c) index state;
     m_private_obtained := array_set (m_private_obtained c) index false |}.

Definition set_obtained (c : GameController) (index : Z) : GameController :=
  {| m_connected := m_connected c;
     m_connected_count := m_connected_count c;
     m_states_num := m_states_num c;
     m_first_state := m_first_state c;
     m_last_state := m_last_state c;
     m_states := m_states c;
     m_private_obtained := array_set (m_private_obtained c) index true |}.

(** The [for] loop of [ReadStates]: [n] iterations are left, [i] is the
    loop counter and [states] what has been written to the caller's array
    ([ret_num] is its length). *)
Fixpoint ReadStates_loop (n : nat) (i : Z) (states_num : Z)
    (c : GameController) (states : list State) : GameController * list State :=
  match n with
  | O => (c, states)
  | S n' =>
      if states_num <=? Z.of_nat (length states) then (c, states)
      else
        let index := u32 (m_first_state c + i) mod MAX_STATES in
        if negb (m_private_obtained c index) then
          ReadStates_loop n' (i + 1) states_num (set_obtained c index)
            (states ++ [m_states c index])
        else ReadStates_loop n' (i + 1) states_num c states
  end.

(** What [ReadStates] hands back: the controller afterwards, the states
    written to [states[0..ret_num-1]], and the two out-parameters. *)
Record ReadResult : Type := {
  controller : GameController;
  states : list State;
  ret_num : Z;
  isConnected : bool;
  connectedCount : Z
}.

Definition ReadStates (c : GameController) (states_num : Z) : ReadResult :=
  let '(c', written) :=
    if m_connected c then
      if m_states_num c =? 0 then (c, [m_last_state c])
      else ReadStates_loop (Z.to_nat (m_states_num c)) 0 states_num c []
    else (c, []) in
  {| controller := c';
     states := written;
     ret_num := Z.of_nat (length written);
     isConnected := m_connected c;
     connectedCount := m_connected_count c |}.

(** [CheckButton]; [now] is what [sceKernelGetProcessTime()] returns. *)
Definition CheckButton (c : GameController) (now : Z) (button : Z)
    (is_pressed : bool) : GameController :=
  let state := GetLastState c in
  let buttons :=
    if is_pressed then Z.lor (buttonsState state) button
    else Z.ldiff (buttonsState state) button in
  AddState c {| time := now; buttonsState := buttons;
                axes := axes state; other_members := other_members state |}.

(** [Axis]. *)
Definition Axis (c : GameController) (now : Z) (axis : Z) (value : Z)
    : GameController :=
  let state := GetLastState c in
  let axis_id := axis in
  let axes' := array_set (axes state) axis_id value in
  let buttons := buttonsState state in
  let buttons :=
    if axis =? TriggerLeft then
      if 0 <? value then Z.lor buttons L2 else Z.ldiff buttons L2
    else buttons in
  let buttons :=
    if axis =? TriggerRight then
      if 0 <? value then Z.lor buttons R2 else Z.ldiff buttons R2
    else buttons in
  AddState c {| time := now; buttonsState := buttons;
                axes := axes'; other_members := other_members state |}.

(** [Poll]: the controller afterwards; the call returns 100. *)
Definition Poll (c : GameController) (now : Z) : GameController * Z :=
  let c' :=
    if m_connected c then
      if m_states_num c =? 0 then
        let diff := u64 (now - time (m_last_state c)) / 1000 in
        if 100 <=? diff then AddState c (GetLastState c) else c
      else
        let index := u32 (m_first_state c - 1 + m_states_num c) mod MAX_STATES in
        let diff := u64 (now - time (m_states c index)) / 1000 in
        if m_private_obtained c index && (100 <=? diff)
        then AddState c (GetLastState c) else c
    else c in
  (c', 100).

(** One call of a member function that touches the ring.  [Gyro],
    [Acceleration] and [SetTouchpadState] queue a state through [AddState]
    too; as far as the ring goes they are [step_AddState]. *)
Inductive step : GameController -> GameController -> Prop :=
| step_AddState c state : step c (AddState c state)
| step_ReadStates c states_num : step c (controller (ReadStates c states_num))
| step_CheckButton c now button is_pressed :
    step c (CheckButton c now button is_pressed)
| step_Axis c now axis value : step c (Axis c now axis value)
| step_Poll c now : step c (fst (Poll c now)).

(** The controllers a constructed object can become; [c0] is the object as
    its member initialisers leave it. *)
Inductive reachable (c0 : GameController) : GameController -> Prop :=
| reachable_ctor : reachable c0 (GameController_ctor c0)
| reachable_step c c' : reachable c0 c -> step c c' -> reachable c0 c'.

(** The indices of the ring that hold the [m_states_num] queued states,
    oldest first. *)
Definition window (c : GameController) : list Z :=
  map (fun i => (m_first_state c + Z.of_nat i) mod MAX_STATES)
      (seq 0 (Z.to_nat (m_states_num c))).

(** The ring is in range: the first index is below [MAX_STATES] and at
    most [MAX_STATES] states are queued. *)
Definition ring_ok (c : GameController) : Prop :=
  0 <= m_first_state c < MAX_STATES /\ 0 <= m_states_num c <= MAX_STATES.

(** The queued states that no [ReadStates] has handed out yet, oldest
    first. *)
Definition pending (c : GameController) : list State :=
  map (m_states c)
      (filter (fun index => negb (m_private_obtained c index)) (window c)).

End Controller.

End Input.

(** A pad for the examples: a ring of four states, the two trigger axes and
    the L2, R2 and cross button masks. *)
Module PadSamples.
Import Input.

Definition MAX_STATES : Z := 4.
Definition TriggerLeft : Z := 4.
Definition TriggerRight : Z := 5.
Definition L2 : Z := 0x100.
Definition R2 : Z := 0x200.
Definition Cross : Z := 0x4000.

Definition idle : State :=
  {| time := 0; buttonsState := 0; axes := fun _ => 128; other_members := 0 |}.

Definition at_time (t : Z) : State :=
  {| time := t; buttonsState := 0; axes := fun _ => 128; other_members := 0 |}.

(** The object before its constructor runs, and a connected pad. *)
Definition unconstructed : GameController :=
  {| m_connected := false; m_connected_count := 0;
     m_states_num := 0; m_first_state := 0; m_last_state := idle;
     m_states := fun _ => idle; m_private_obtained := fun _ => false |}.

Definition connected_pad : GameController :=
  {| m_connected := true; m_connected_count := 1;
     m_states_num := 0; m_first_state := 0; m_last_state := idle;
     m_states := fun _ => idle; m_private_obtained := fun _ => false |}.

Definition one_queued : GameController :=
  AddState MAX_STATES connected_pad (at_time 5).

Definition two_queued : GameController :=
  AddState MAX_STATES one_queued (at_time 9).

(** A full ring, holding the states of times 1, 2, 3 and 4. *)
Definition full_ring : GameController :=
  AddState MAX_STATES
    (AddState MAX_STATES
       (AddState MAX_STATES
          (AddState MAX_STATES connected_pad (at_time 1)) (at_time 2))
       (at_time 3))
    (at_time 4).

(** The pad once its only queued state has been read. *)
Definition one_read : GameController :=
  controller (ReadStates MAX_STATES one_queued 1).

End PadSamples.

(** ** Reference lists for the quad loops *)

(** The two triangles of quad number [k]. *)
Definition quad_triangles (k : Z) : list Z :=
  [4 * k; 4 * k + 1; 4 * k + 2; 4 * k; 4 * k + 2; 4 * k + 3].

(** The triangles of the quads [k], [k + 1], ..., [k + m - 1]. *)
Definition quads_from (k m : nat) : list Z :=
  flat_map quad_triangles (map Z.of_nat (seq k m)).

(** The number of quads the loops walk through for [num_vertices]. *)
Definition num_quads (num_vertices : Z) : Z := (num_vertices + 3) / 4.

(** * Properties *)

Import vk AmdGpu VideoCore.

(** ** Outcomes and 32-bit arithmetic *)

Lemma u32_range (z : Z) : 0 <= u32 z < 2 ^ 32.
Proof. unfold u32; apply Z.mod_pos_bound; lia. Qed.

Lemma u32_small (z : Z) : 0 <= z < 2 ^ 32 -> u32 z = z.
Proof. intros H; unfold u32; apply Z.mod_small; exact H. Qed.

Lemma u32_sub_u32 (a b : Z) : u32 (a - u32 b) = u32 (a - b).
Proof. unfold u32; apply Zminus_mod_idemp_r. Qed.

Lemma std_min_spec (a b : Z) : std_min a b = Z.min a b.
Proof. unfold std_min; destruct (Z.ltb_spec b a); lia. Qed.

(** Peel the calls of a builder that returned: each call it made returned. *)
Ltac returned H :=
  repeat match type of H with
         | bind ?o _ = Returned _ =>
             let a := fresh "a" in
             let Ha := fresh "Ha" in
             destruct o as [a | ?] eqn:Ha; simpl in H; [ | discriminate H ]
         end.

(** ** PromoteFormatToDepth *)

Lemma PromoteFormatToDepth_unmapped (fmt : Format) :
  fmt <> eR32Sfloat -> fmt <> eR16Unorm ->
  fmt <> eR8G8B8A8Unorm -> fmt <> eR8G8B8A8Srgb ->
  LiverpoolToVK.PromoteFormatToDepth fmt = Terminated UnreachableCode.
Proof.
  intros H1 H2 H3 H4; unfold LiverpoolToVK.PromoteFormatToDepth.
  apply Z.eqb_neq in H1, H2, H3, H4.
  rewrite H1, H2, H3, H4; reflexivity.
Qed.

Lemma PromoteFormatToDepth_returned (fmt d : Format) :
  LiverpoolToVK.PromoteFormatToDepth fmt = Returned d ->
  In (fmt, d) [ (eR32Sfloat, eD32Sfloat); (eR16Unorm, eD16Unorm);
                (eR8G8B8A8Unorm, eR32Uint); (eR8G8B8A8Srgb, eR32Uint) ].
Proof.
  unfold LiverpoolToVK.PromoteFormatToDepth.
  destruct (Z.eqb_spec fmt eR32Sfloat) as [-> | _];
    [ intros [= <-]; simpl; auto | ].
  destruct (Z.eqb_spec fmt eR16Unorm) as [-> | _];
    [ intros [= <-]; simpl; auto | ].
  destruct (Z.eqb_spec fmt eR8G8B8A8Unorm) as [-> | _];
    [ intros [= <-]; simpl; auto | ].
  destruct (Z.eqb_spec fmt eR8G8B8A8Srgb) as [-> | _];
    [ intros [= <-]; simpl; auto 6 | ].
  discriminate.
Qed.

(** The number format the generic-image builder hands to the format table. *)
Lemma ImageViewInfo_Image_depth_format (E : Collaborators) (image : AmdGpu.Image)
    (desc : Shader.ImageResource) (info : ImageViewInfo) :
  ImageViewInfo_Image E image desc = Returned info ->
  exists f,
    SurfaceFormat E (GetDataFmt image)
      (if IsStorage E desc image && NumberFormat_eqb (GetNumberFmt image) Srgb
       then Unorm else GetNumberFmt image) = Returned f /\
    (if Shader.is_depth desc
     then LiverpoolToVK.PromoteFormatToDepth f = Returned (format info)
     else format info = f).
Proof.
  unfold ImageViewInfo_Image; intros H.
  returned H. exists a; split; [reflexivity | ].
  destruct (ImageViewType_eqb a1 eCube), (Shader.is_array desc);
    injection H as <-; simpl;
    revert Ha0;
    (destruct (Shader.is_depth desc); intros Hp;
     [ exact Hp | injection Hp as ->; reflexivity ]).
Qed.

(** C1. [PromoteFormatToDepth] is exactly the fixed mapping
    R32Sfloat -> D32Sfloat, R16Unorm -> D16Unorm, R8G8B8A8Unorm -> R32Uint,
    R8G8B8A8Srgb -> R32Uint: it returns nothing else, and on every other
    format it reaches [UNREACHABLE()] instead of returning.  A depth-sampled
    generic image whose format resolves to R32Sfloat is built with
    D32Sfloat. *)
Theorem PromoteFormatToDepth_fixed_mapping :
  LiverpoolToVK.PromoteFormatToDepth eR32Sfloat = Returned eD32Sfloat /\
  LiverpoolToVK.PromoteFormatToDepth eR16Unorm = Returned eD16Unorm /\
  LiverpoolToVK.PromoteFormatToDepth eR8G8B8A8Unorm = Returned eR32Uint /\
  LiverpoolToVK.PromoteFormatToDepth eR8G8B8A8Srgb = Returned eR32Uint /\
  (forall fmt : Format,
      fmt <> eR32Sfloat -> fmt <> eR16Unorm ->
      fmt <> eR8G8B8A8Unorm -> fmt <> eR8G8B8A8Srgb ->
      LiverpoolToVK.PromoteFormatToDepth fmt = Terminated UnreachableCode) /\
  (forall fmt d : Format,
      LiverpoolToVK.PromoteFormatToDepth fmt = Returned d ->
      In (fmt, d) [ (eR32Sfloat, eD32Sfloat); (eR16Unorm, eD16Unorm);
                    (eR8G8B8A8Unorm, eR32Uint); (eR8G8B8A8Srgb, eR32Uint) ]) /\
  (forall (E : Collaborators) (image : AmdGpu.Image)
          (desc : Shader.ImageResource) (info : ImageViewInfo),
      Shader.is_depth desc = true ->
      SurfaceFormat E (GetDataFmt image)
        (if IsStorage E desc image && NumberFormat_eqb (GetNumberFmt image) Srgb
         then Unorm else GetNumberFmt image) = Returned eR32Sfloat ->
      ImageViewInfo_Image E image desc = Returned info ->
      format info = eD32Sfloat).
Proof.
  repeat split; try reflexivity.
  - exact PromoteFormatToDepth_unmapped.
  - exact PromoteFormatToDepth_returned.
  - intros E image desc info Hd Hf H.
    destruct (ImageViewInfo_Image_depth_format E image desc info H) as (f & Hf' & Hp).
    rewrite Hd in Hp. rewrite Hf in Hf'. injection Hf' as <-.
    change (Returned eD32Sfloat = Returned (format info)) in Hp.
    injection Hp as <-; reflexivity.
Qed.

Lemma PromoteFormatToDepth_fixed_mapping_witness :
  LiverpoolToVK.PromoteFormatToDepth eR8Uint = Terminated UnreachableCode /\
  In (eR16Unorm, eD16Unorm)
     [ (eR32Sfloat, eD32Sfloat); (eR16Unorm, eD16Unorm);
       (eR8G8B8A8Unorm, eR32Uint); (eR8G8B8A8Srgb, eR32Uint) ] /\
  exists info,
    ImageViewInfo_Image Samples.host Samples.float_2d Samples.sampled_depth
      = Returned info /\
    format info = eD32Sfloat.
Proof.
  destruct PromoteFormatToDepth_fixed_mapping as (_ & _ & _ & _ & Hu & Hr & Hb).
  split; [ | split ].
  - apply (Hu eR8Uint); discriminate.
  - apply (Hr eR16Unorm eD16Unorm); reflexivity.
  - eexists; split; [ reflexivity | ].
    apply (Hb Samples.host Samples.float_2d Samples.sampled_depth);
      reflexivity.
Defined.

(** ** ConvertImageViewType *)

Lemma ConvertImageViewType_returned (t : ImageType) (v : ImageViewType) :
  ConvertImageViewType t = Returned v ->
  In (t, v) [ (Color1D, e1D); (Color1DArray, e1DArray); (Color2D, e2D);
              (Color2DMsaa, e2D); (Color2DArray, e2DArray); (Cube, eCube);
              (Color3D, e3D) ].
Proof.
  destruct t; simpl; intros H; try discriminate H;
    injection H as <-; auto 8.
Qed.

Lemma ConvertImageViewType_default (t : ImageType) :
  ~ In t [Color1D; Color1DArray; Color2D; Color2DMsaa; Color2DArray; Cube; Color3D] ->
  ConvertImageViewType t = Terminated UnreachableCode.
Proof.
  intros H; destruct t; try reflexivity; exfalso; apply H; simpl; auto 8.
Qed.

(** The builder stops as soon as one of its calls stops. *)
Lemma ImageViewInfo_Image_unbound_type (E : Collaborators) (image : AmdGpu.Image)
    (desc : Shader.ImageResource) :
  ConvertImageViewType (GetBoundType E image) = Terminated UnreachableCode ->
  is_terminated (ImageViewInfo_Image E image desc) = true.
Proof.
  intros H; unfold ImageViewInfo_Image.
  destruct (SurfaceFormat E _ _) as [f | ?]; [ simpl | reflexivity ].
  destruct (if Shader.is_depth desc then _ else _) as [f' | ?];
    [ simpl | reflexivity ].
  rewrite H; reflexivity.
Qed.

(** C10. [ConvertImageViewType] returns a view type only for Color1D,
    Color1DArray, Color2D, Color2DMsaa (the same 2D view type as Color2D),
    Color2DArray, Cube and Color3D.  Every other image type reaches
    [UNREACHABLE()]; Color2DMsaaArray, which the generic-image builder tests
    for when it forces one mip level, is one of them, and a descriptor bound
    with that type stops the builder. *)
Theorem ConvertImageViewType_handled_types :
  ConvertImageViewType Color1D = Returned e1D /\
  ConvertImageViewType Color1DArray = Returned e1DArray /\
  ConvertImageViewType Color2D = Returned e2D /\
  ConvertImageViewType Color2DMsaa = Returned e2D /\
  ConvertImageViewType Color2DArray = Returned e2DArray /\
  ConvertImageViewType Cube = Returned eCube /\
  ConvertImageViewType Color3D = Returned e3D /\
  (forall t : ImageType,
      ~ In t [Color1D; Color1DArray; Color2D; Color2DMsaa; Color2DArray;
              Cube; Color3D] ->
      ConvertImageViewType t = Terminated UnreachableCode) /\
  (forall (t : ImageType) (v : ImageViewType),
      ConvertImageViewType t = Returned v ->
      In (t, v) [ (Color1D, e1D); (Color1DArray, e1DArray); (Color2D, e2D);
                  (Color2DMsaa, e2D); (Color2DArray, e2DArray); (Cube, eCube);
                  (Color3D, e3D) ]) /\
  ConvertImageViewType Color2DMsaaArray = Terminated UnreachableCode /\
  (forall (E : Collaborators) (image : AmdGpu.Image) (desc : Shader.ImageResource),
      GetBoundType E image = Color2DMsaaArray ->
      is_terminated (ImageViewInfo_Image E image desc) = true).
Proof.
  repeat split.
  - exact ConvertImageViewType_default.
  - exact ConvertImageViewType_returned.
  - intros E image desc Hb.
    apply ImageViewInfo_Image_unbound_type; rewrite Hb; reflexivity.
Qed.

Lemma ConvertImageViewType_handled_types_witness :
  ConvertImageViewType (ImageTypeOther 0) = Terminated UnreachableCode /\
  In (Color2DMsaa, e2D)
     [ (Color1D, e1D); (Color1DArray, e1DArray); (Color2D, e2D);
       (Color2DMsaa, e2D); (Color2DArray, e2DArray); (Cube, eCube);
       (Color3D, e3D) ] /\
  is_terminated
    (ImageViewInfo_Image Samples.host Samples.msaa_2d_array Samples.sampled) = true.
Proof.
  destruct ConvertImageViewType_handled_types
    as (_ & _ & _ & _ & _ & _ & _ & Hd & Hr & _ & Hb).
  split; [ | split ].
  - apply (Hd (ImageTypeOther 0)).
    simpl; intros H; repeat destruct H as [H | H]; try discriminate H; exact H.
  - apply (Hr Color2DMsaa e2D); reflexivity.
  - apply (Hb Samples.host Samples.msaa_2d_array Samples.sampled); reflexivity.
Defined.

(** ** The generic-image builder *)

(** The builder returns as soon as the three calls it makes return. *)
Lemma ImageViewInfo_Image_returns (E : Collaborators) (image : AmdGpu.Image)
    (desc : Shader.ImageResource) (f f' : Format) (ty : ImageViewType) :
  SurfaceFormat E (GetDataFmt image)
    (if IsStorage E desc image && NumberFormat_eqb (GetNumberFmt image) Srgb
     then Unorm else GetNumberFmt image) = Returned f ->
  (if Shader.is_depth desc then LiverpoolToVK.PromoteFormatToDepth f
   else Returned f) = Returned f' ->
  ConvertImageViewType (GetBoundType E image) = Returned ty ->
  exists info, ImageViewInfo_Image E image desc = Returned info.
Proof.
  intros Hf Hp Ht; unfold ImageViewInfo_Image.
  rewrite Hf; simpl. rewrite Hp; simpl. rewrite Ht; simpl.
  destruct (ImageViewType_eqb ty eCube), (Shader.is_array desc); eexists; reflexivity.
Qed.

(** The layer count of a generic-image view, from the bound view type. *)
Lemma ImageViewInfo_Image_layers (E : Collaborators) (image : AmdGpu.Image)
    (desc : Shader.ImageResource) (info : ImageViewInfo) :
  ImageViewInfo_Image E image desc = Returned info ->
  let n := u32 (last_array image - base_array image + 1) in
  exists ty,
    ConvertImageViewType (GetBoundType E image) = Returned ty /\
    match ty with
    | eCube =>
        if Shader.is_array desc
        then type info = eCubeArray /\ layers (extent (range info)) = n
        else type info = eCube /\ layers (extent (range info)) = std_min n 6
    | e3D =>
        type info = e3D /\
        layers (extent (range info)) = (if 1 <? n then 1 else n)
    | _ => type info = ty /\ layers (extent (range info)) = n
    end.
Proof.
  intros H n; unfold ImageViewInfo_Image in H.
  returned H. exists a1; split; [ reflexivity | ].
  destruct a1; simpl in H; try (injection H as <-; simpl; split; reflexivity).
  destruct (Shader.is_array desc); injection H as <-; simpl; split; reflexivity.
Qed.


(** The mip range of a generic-image view. *)
Lemma ImageViewInfo_Image_levels (E : Collaborators) (image : AmdGpu.Image)
    (desc : Shader.ImageResource) (info : ImageViewInfo) :
  ImageViewInfo_Image E image desc = Returned info ->
  levels (extent (range info)) =
    (if ImageType_eqb (GetType image) Color2DMsaa
        || ImageType_eqb (GetType image) Color2DMsaaArray
     then 1
     else u32 (last_level image - base_level image + 1)).
Proof.
  unfold ImageViewInfo_Image; intros H.
  returned H.
  destruct (ImageViewType_eqb a1 eCube), (Shader.is_array desc);
    injection H as <-; reflexivity.
Qed.

Lemma ImageType_eqb_eq (a b : ImageType) : ImageType_eqb a b = true <-> a = b.
Proof.
  destruct a, b; simpl; split; intros H;
    try reflexivity; try discriminate H.
  - apply Z.eqb_eq in H; congruence.
  - injection H as ->; apply Z.eqb_refl.
Qed.

Lemma is_msaa_false (t : ImageType) :
  t <> Color2DMsaa -> t <> Color2DMsaaArray ->
  ImageType_eqb t Color2DMsaa || ImageType_eqb t Color2DMsaaArray = false.
Proof.
  intros H1 H2; apply orb_false_iff; split;
    apply not_true_is_false; intros H; apply ImageType_eqb_eq in H; contradiction.
Qed.




(** ** The color and depth target builders *)

Lemma ImageViewInfo_ColorBuffer_range (E : Collaborators)
    (col_buffer : Liverpool.ColorBuffer.t) (info : ImageViewInfo) :
  ImageViewInfo_ColorBuffer E col_buffer = Returned info ->
  let n := u32 (Liverpool.ColorBuffer.NumSlices col_buffer
                - Liverpool.ColorBuffer.view_slice_start col_buffer) in
  layer (base (range info)) = u32 (Liverpool.ColorBuffer.view_slice_start col_buffer) /\
  layers (extent (range info)) = n /\
  levels (extent (range info)) = 1 /\
  type info = (if 1 <? n then e2DArray else e2D) /\
  is_storage info = false.
Proof.
  intros H n; unfold ImageViewInfo_ColorBuffer in H.
  returned H. injection H as <-; simpl.
  rewrite u32_sub_u32. repeat split; reflexivity.
Qed.

Lemma ImageViewInfo_DepthBuffer_range (E : Collaborators)
    (depth_buffer : Liverpool.DepthBuffer.t) (view : Liverpool.DepthView.t)
    (ctl : Liverpool.DepthControl.t) (info : ImageViewInfo) :
  ImageViewInfo_DepthBuffer E depth_buffer view ctl = Returned info ->
  let n := u32 (Liverpool.DepthView.NumSlices view
                - Liverpool.DepthView.slice_start view) in
  layer (base (range info)) = u32 (Liverpool.DepthView.slice_start view) /\
  layers (extent (range info)) = n /\
  levels (extent (range info)) = 1 /\
  type info = (if 1 <? n then e2DArray else e2D) /\
  is_storage info = Liverpool.DepthControl.depth_write_enable ctl.
Proof.
  intros H n; unfold ImageViewInfo_DepthBuffer in H.
  returned H. injection H as <-; simpl.
  rewrite u32_sub_u32. repeat split; reflexivity.
Qed.

(** C3 (as amended). The color and depth target builders always give
    mipLevelCount = 1.  The generic-image builder gives mipLevelCount >= 1
    exactly when the type is multi-sampled or the 32-bit count
    [last_level - base_level + 1] is not zero.  Each builder gives
    arrayLayerCount >= 1 exactly when its 32-bit subtraction-based count
    ([last_array - base_array + 1], [NumSlices - slice_start]) is not zero:
    a negative difference wraps to a large count and a zero count is kept;
    no builder clamps or rejects it. *)
Theorem ImageViewInfo_counts_positive (E : Collaborators) :
  (forall (image : AmdGpu.Image) (desc : Shader.ImageResource) (info : ImageViewInfo),
      ImageViewInfo_Image E image desc = Returned info ->
      (1 <= levels (extent (range info)) <->
       (GetType image = Color2DMsaa \/ GetType image = Color2DMsaaArray \/
        u32 (last_level image - base_level image + 1) <> 0)) /\
      (1 <= layers (extent (range info)) <->
       u32 (last_array image - base_array image + 1) <> 0)) /\
  (forall (col_buffer : Liverpool.ColorBuffer.t) (info : ImageViewInfo),
      ImageViewInfo_ColorBuffer E col_buffer = Returned info ->
      levels (extent (range info)) = 1 /\
      (1 <= layers (extent (range info)) <->
       u32 (Liverpool.ColorBuffer.NumSlices col_buffer
            - Liverpool.ColorBuffer.view_slice_start col_buffer) <> 0)) /\
  (forall (depth_buffer : Liverpool.DepthBuffer.t) (view : Liverpool.DepthView.t)
          (ctl : Liverpool.DepthControl.t) (info : ImageViewInfo),
      ImageViewInfo_DepthBuffer E depth_buffer view ctl = Returned info ->
      levels (extent (range info)) = 1 /\
      (1 <= layers (extent (range info)) <->
       u32 (Liverpool.DepthView.NumSlices view
            - Liverpool.DepthView.slice_start view) <> 0)).
Proof.
  split; [ | split ].
  - intros image desc info H.
    pose proof (u32_range (last_level image - base_level image + 1)) as Hl.
    pose proof (u32_range (last_array image - base_array image + 1)) as Ha.
    split.
    + rewrite (ImageViewInfo_Image_levels E image desc info H).
      destruct (ImageType_eqb (GetType image) Color2DMsaa) eqn:H1; simpl.
      { apply ImageType_eqb_eq in H1. split; [ auto | lia ]. }
      destruct (ImageType_eqb (GetType image) Color2DMsaaArray) eqn:H2.
      { apply ImageType_eqb_eq in H2. split; [ auto | lia ]. }
      split.
      * intros Hp; right; right; lia.
      * intros [Hc | [Hc | Hc]].
        -- apply ImageType_eqb_eq in Hc; congruence.
        -- apply ImageType_eqb_eq in Hc; congruence.
        -- lia.
    + destruct (ImageViewInfo_Image_layers E image desc info H) as (ty & _ & Hy).
      cbv zeta in Hy.
      destruct ty; try (destruct Hy as [_ ->]; lia).
      * destruct Hy as [_ ->].
        destruct (Z.ltb_spec 1 (u32 (last_array image - base_array image + 1))); lia.
      * destruct (Shader.is_array desc); destruct Hy as [_ ->];
          [ | rewrite std_min_spec ]; lia.
  - intros col_buffer info H.
    destruct (ImageViewInfo_ColorBuffer_range E col_buffer info H)
      as (_ & -> & -> & _).
    pose proof (u32_range (Liverpool.ColorBuffer.NumSlices col_buffer
                           - Liverpool.ColorBuffer.view_slice_start col_buffer)).
    split; [ reflexivity | lia ].
  - intros depth_buffer view ctl info H.
    destruct (ImageViewInfo_DepthBuffer_range E depth_buffer view ctl info H)
      as (_ & -> & -> & _).
    pose proof (u32_range (Liverpool.DepthView.NumSlices view
                           - Liverpool.DepthView.slice_start view)).
    split; [ reflexivity | lia ].
Qed.

Lemma ImageViewInfo_counts_positive_witness :
  (exists info,
      ImageViewInfo_Image Samples.host Samples.cube_twelve Samples.sampled
        = Returned info /\
      1 <= levels (extent (range info)) /\ 1 <= layers (extent (range info))) /\
  (exists info,
      ImageViewInfo_ColorBuffer Samples.host Samples.target_2_of_6 = Returned info /\
      levels (extent (range info)) = 1 /\ 1 <= layers (extent (range info))) /\
  (exists info,
      ImageViewInfo_DepthBuffer Samples.host Samples.depth_buffer
        Samples.depth_view_0_of_1 Samples.depth_ctl = Returned info /\
      levels (extent (range info)) = 1 /\ 1 <= layers (extent (range info))).
Proof.
  destruct (ImageViewInfo_counts_positive Samples.host) as (Hi & Hc & Hd).
  split; [ | split ].
  - eexists; split; [ reflexivity | ].
    destruct (Hi Samples.cube_twelve Samples.sampled _ eq_refl) as [Hl Ha].
    split.
    + apply Hl; right; right; vm_compute; discriminate.
    + apply Ha; vm_compute; discriminate.
  - eexists; split; [ reflexivity | ].
    destruct (Hc Samples.target_2_of_6 _ eq_refl) as [Hl Ha].
    split; [ exact Hl | apply Ha; vm_compute; discriminate ].
  - eexists; split; [ reflexivity | ].
    destruct (Hd Samples.depth_buffer Samples.depth_view_0_of_1
                Samples.depth_ctl _ eq_refl) as [Hl Ha].
    split; [ exact Hl | apply Ha; vm_compute; discriminate ].
Defined.

(** C3, as stated, fails: a color target whose [slice_start] equals its
    number of slices is built with arrayLayerCount 0. *)
Lemma ImageViewInfo_ColorBuffer_zero_layers :
  exists info,
    ImageViewInfo_ColorBuffer Samples.host Samples.target_1_of_1 = Returned info /\
    layers (extent (range info)) = 0 /\
    ~ 1 <= layers (extent (range info)).
Proof.
  eexists; split; [ reflexivity | ].
  split; [ reflexivity | ].
  vm_compute; intros H; apply H; reflexivity.
Qed.

(** ** Cube maps, mip levels and storage formats of a generic image *)

(** C6. For a generic image descriptor bound as Cube, whenever format
    resolution and depth promotion return, the builder returns a view
    descriptor: when the shader asks for an array its type is CubeArray and
    arrayLayerCount is the (32-bit) count [last_array - base_array + 1],
    unclamped; otherwise its type is Cube and arrayLayerCount is the
    minimum of that count and 6, so [base_array = 0], [last_array = 11]
    gives 6. *)
Theorem ImageViewInfo_Image_cube (E : Collaborators) (image : AmdGpu.Image)
    (desc : Shader.ImageResource) (f f' : Format) :
  SurfaceFormat E (GetDataFmt image)
    (if IsStorage E desc image && NumberFormat_eqb (GetNumberFmt image) Srgb
     then Unorm else GetNumberFmt image) = Returned f ->
  (if Shader.is_depth desc then LiverpoolToVK.PromoteFormatToDepth f
   else Returned f) = Returned f' ->
  GetBoundType E image = Cube ->
  exists info,
    ImageViewInfo_Image E image desc = Returned info /\
    (Shader.is_array desc = true ->
     type info = eCubeArray /\
     layers (extent (range info)) = u32 (last_array image - base_array image + 1)) /\
    (Shader.is_array desc = false ->
     type info = eCube /\
     layers (extent (range info))
       = Z.min (u32 (last_array image - base_array image + 1)) 6) /\
    (Shader.is_array desc = false ->
     base_array image = 0 -> last_array image = 11 ->
     layers (extent (range info)) = 6).
Proof.
  intros Hf Hp Hb.
  destruct (ImageViewInfo_Image_returns E image desc f f' eCube Hf Hp)
    as [info H]; [ rewrite Hb; reflexivity | ].
  exists info; split; [ exact H | ].
  destruct (ImageViewInfo_Image_layers E image desc info H) as (ty & Ht & Hy).
  rewrite Hb in Ht; injection Ht as <-. cbv zeta in Hy.
  split; [ | split ].
  - intros Ha; rewrite Ha in Hy; exact Hy.
  - intros Ha; rewrite Ha in Hy; rewrite <- std_min_spec; exact Hy.
  - intros Ha H0 H11; rewrite Ha, H0, H11 in Hy; destruct Hy as [_ ->]; reflexivity.
Qed.

Lemma ImageViewInfo_Image_cube_witness :
  (exists info,
      ImageViewInfo_Image Samples.host Samples.cube_twelve Samples.sampled
        = Returned info /\
      type info = eCube /\ layers (extent (range info)) = 6) /\
  (exists info,
      ImageViewInfo_Image Samples.host Samples.cube_twelve Samples.sampled_array
        = Returned info /\
      type info = eCubeArray /\ layers (extent (range info)) = 12).
Proof.
  split.
  - destruct (ImageViewInfo_Image_cube Samples.host Samples.cube_twelve
                Samples.sampled eR8G8B8A8Unorm eR8G8B8A8Unorm
                eq_refl eq_refl eq_refl) as (info & H & _ & Hc & H6).
    exists info; split; [ exact H | ].
    split; [ apply Hc; reflexivity | apply H6; reflexivity ].
  - destruct (ImageViewInfo_Image_cube Samples.host Samples.cube_twelve
                Samples.sampled_array eR8G8B8A8Unorm eR8G8B8A8Unorm
                eq_refl eq_refl eq_refl) as (info & H & Ha & _ & _).
    exists info; split; [ exact H | ].
    apply Ha; reflexivity.
Defined.

(** C7 (as amended). For a generic image descriptor, whenever format
    resolution, depth promotion and the view-type conversion return, the
    builder returns a view descriptor whose mipLevelCount is
    [last_level - base_level + 1] reduced modulo 2^32 (so it is that very
    number whenever [base_level <= last_level], and a number near 2^32 when
    the range is reversed), except that the multi-sample 2D types
    Color2DMsaa and Color2DMsaaArray force mipLevelCount = 1 whatever the
    level range.  A descriptor whose bound type is Color2DMsaaArray is not
    built at all: the view-type conversion ends the process. *)
Theorem ImageViewInfo_Image_mip_levels (E : Collaborators) (image : AmdGpu.Image)
    (desc : Shader.ImageResource) :
  (forall (f f' : Format) (ty : ImageViewType),
      SurfaceFormat E (GetDataFmt image)
        (if IsStorage E desc image && NumberFormat_eqb (GetNumberFmt image) Srgb
         then Unorm else GetNumberFmt image) = Returned f ->
      (if Shader.is_depth desc then LiverpoolToVK.PromoteFormatToDepth f
       else Returned f) = Returned f' ->
      ConvertImageViewType (GetBoundType E image) = Returned ty ->
      exists info,
        ImageViewInfo_Image E image desc = Returned info /\
        (GetType image = Color2DMsaa \/ GetType image = Color2DMsaaArray ->
         levels (extent (range info)) = 1) /\
        (GetType image <> Color2DMsaa -> GetType image <> Color2DMsaaArray ->
         levels (extent (range info))
           = u32 (last_level image - base_level image + 1)) /\
        (GetType image <> Color2DMsaa -> GetType image <> Color2DMsaaArray ->
         base_level image <= last_level image ->
         last_level image - base_level image + 1 < 2 ^ 32 ->
         levels (extent (range info)) = last_level image - base_level image + 1)) /\
  (GetBoundType E image = Color2DMsaaArray ->
   is_terminated (ImageViewInfo_Image E image desc) = true).
Proof.
  split.
  - intros f f' ty Hf Hp Ht.
    destruct (ImageViewInfo_Image_returns E image desc f f' ty Hf Hp Ht)
      as [info H].
    exists info; split; [ exact H | ].
    rewrite (ImageViewInfo_Image_levels E image desc info H).
    split; [ | split ].
    + intros [Hm | Hm]; rewrite Hm; reflexivity.
    + intros H1 H2; rewrite (is_msaa_false _ H1 H2); reflexivity.
    + intros H1 H2 Hle Hlt; rewrite (is_msaa_false _ H1 H2).
      apply u32_small; lia.
  - intros Hb. apply ImageViewInfo_Image_unbound_type.
    rewrite Hb; reflexivity.
Qed.

Lemma ImageViewInfo_Image_mip_levels_witness :
  (exists info,
      ImageViewInfo_Image Samples.host Samples.msaa_2d Samples.sampled
        = Returned info /\
      levels (extent (range info)) = 1) /\
  (exists info,
      ImageViewInfo_Image Samples.host_msaa_single Samples.msaa_2d_array
        Samples.sampled = Returned info /\
      levels (extent (range info)) = 1) /\
  (exists info,
      ImageViewInfo_Image Samples.host Samples.srgb_2d Samples.sampled
        = Returned info /\
      levels (extent (range info)) = 3 - 0 + 1) /\
  (exists info,
      ImageViewInfo_Image Samples.host Samples.levels_reversed Samples.sampled
        = Returned info /\
      levels (extent (range info)) = u32 (0 - 2 + 1)) /\
  is_terminated
    (ImageViewInfo_Image Samples.host Samples.msaa_2d_array Samples.sampled)
    = true.
Proof.
  split; [ | split; [ | split; [ | split ] ] ].
  - destruct (ImageViewInfo_Image_mip_levels Samples.host Samples.msaa_2d
                Samples.sampled) as [Hb _].
    destruct (Hb eR8G8B8A8Unorm eR8G8B8A8Unorm e2D eq_refl eq_refl eq_refl)
      as (info & H & Hm & _).
    exists info; split; [ exact H | apply Hm; left; reflexivity ].
  - destruct (ImageViewInfo_Image_mip_levels Samples.host_msaa_single
                Samples.msaa_2d_array Samples.sampled) as [Hb _].
    destruct (Hb eR8G8B8A8Unorm eR8G8B8A8Unorm e2D eq_refl eq_refl eq_refl)
      as (info & H & Hm & _).
    exists info; split; [ exact H | apply Hm; right; reflexivity ].
  - destruct (ImageViewInfo_Image_mip_levels Samples.host Samples.srgb_2d
                Samples.sampled) as [Hb _].
    destruct (Hb eR8G8B8A8Srgb eR8G8B8A8Srgb e2D eq_refl eq_refl eq_refl)
      as (info & H & _ & _ & He).
    exists info; split; [ exact H | ].
    apply He; simpl; try discriminate; lia.
  - destruct (ImageViewInfo_Image_mip_levels Samples.host Samples.levels_reversed
                Samples.sampled) as [Hb _].
    destruct (Hb eR8G8B8A8Unorm eR8G8B8A8Unorm e2D eq_refl eq_refl eq_refl)
      as (info & H & _ & Hw & _).
    exists info; split; [ exact H | ].
    apply Hw; simpl; discriminate.
  - destruct (ImageViewInfo_Image_mip_levels Samples.host Samples.msaa_2d_array
                Samples.sampled) as [_ Ht].
    apply Ht; reflexivity.
Defined.

(** C7, as stated, fails: a 2D texture with [base_level = 2] and
    [last_level = 0] is built with mipLevelCount 4294967295, which is not
    [last_level - base_level + 1] (that is -1). *)
Lemma ImageViewInfo_Image_mip_levels_wrap :
  exists info,
    ImageViewInfo_Image Samples.host Samples.levels_reversed Samples.sampled
      = Returned info /\
    GetType Samples.levels_reversed = Color2D /\
    levels (extent (range info)) = 4294967295 /\
    levels (extent (range info))
      <> last_level Samples.levels_reversed
         - base_level Samples.levels_reversed + 1.
Proof.
  eexists; split; [ reflexivity | ].
  split; [ reflexivity | split; [ reflexivity | discriminate ] ].
Qed.




(** C8 (as amended). For a color target descriptor (with [slice_start] and
    [NumSlices()] unsigned 32-bit values), whenever the format table
    returns, the builder returns a view descriptor with baseArrayLayer =
    slice_start and arrayLayerCount = NumSlices - slice_start reduced
    modulo 2^32 (so it is that very number whenever slice_start <=
    NumSlices, and 2^32 plus the negative difference otherwise); the view
    type is 2DArray when arrayLayerCount > 1 and 2D otherwise.  With
    slice_start = 2 and six slices: baseArrayLayer 2, arrayLayerCount 4,
    type 2DArray. *)
Theorem ImageViewInfo_ColorBuffer_slices (E : Collaborators)
    (col_buffer : Liverpool.ColorBuffer.t) (f : Format) :
  0 <= Liverpool.ColorBuffer.view_slice_start col_buffer < 2 ^ 32 ->
  0 <= Liverpool.ColorBuffer.NumSlices col_buffer < 2 ^ 32 ->
  SurfaceFormat E (Liverpool.ColorBuffer.info_format col_buffer)
    (Liverpool.ColorBuffer.GetNumberFmt col_buffer) = Returned f ->
  exists info,
    ImageViewInfo_ColorBuffer E col_buffer = Returned info /\
    format info = AdjustColorBufferFormat E f
                    (Liverpool.ColorBuffer.info_comp_swap col_buffer) /\
    layer (base (range info)) = Liverpool.ColorBuffer.view_slice_start col_buffer /\
    layers (extent (range info))
      = u32 (Liverpool.ColorBuffer.NumSlices col_buffer
             - Liverpool.ColorBuffer.view_slice_start col_buffer) /\
    (Liverpool.ColorBuffer.view_slice_start col_buffer
       <= Liverpool.ColorBuffer.NumSlices col_buffer ->
     layers (extent (range info))
       = Liverpool.ColorBuffer.NumSlices col_buffer
         - Liverpool.ColorBuffer.view_slice_start col_buffer) /\
    (Liverpool.ColorBuffer.NumSlices col_buffer
       < Liverpool.ColorBuffer.view_slice_start col_buffer ->
     layers (extent (range info))
       = 2 ^ 32 + (Liverpool.ColorBuffer.NumSlices col_buffer
                   - Liverpool.ColorBuffer.view_slice_start col_buffer)) /\
    (1 < layers (extent (range info)) -> type info = e2DArray) /\
    (layers (extent (range info)) <= 1 -> type info = e2D) /\
    (Liverpool.ColorBuffer.view_slice_start col_buffer = 2 ->
     Liverpool.ColorBuffer.NumSlices col_buffer = 6 ->
     layer (base (range info)) = 2 /\
     layers (extent (range info)) = 4 /\
     type info = e2DArray).
Proof.
  intros Hs Hn Hf.
  assert (H : exists info, ImageViewInfo_ColorBuffer E col_buffer = Returned info).
  { unfold ImageViewInfo_ColorBuffer. rewrite Hf. eexists; reflexivity. }
  destruct H as [info H]. exists info; split; [ exact H | ].
  split.
  { unfold ImageViewInfo_ColorBuffer in H. rewrite Hf in H.
    injection H as <-; reflexivity. }
  destruct (ImageViewInfo_ColorBuffer_range E col_buffer info H)
    as (Hb & Hl & _ & Ht & _).
  cbv zeta in Hl, Ht. rewrite <- Hl in Ht.
  rewrite (u32_small _ Hs) in Hb.
  split; [ exact Hb | ]. split; [ exact Hl | ].
  split; [ intros Hle; rewrite Hl; apply u32_small; lia | ].
  split.
  { intros Hlt; rewrite Hl; unfold u32.
    symmetry; apply (Z.mod_unique _ _ (-1)); lia. }
  split; [ intros Hgt; rewrite Ht; apply Z.ltb_lt in Hgt; rewrite Hgt; reflexivity | ].
  split; [ intros Hle; rewrite Ht; apply Z.ltb_ge in Hle; rewrite Hle; reflexivity | ].
  intros H2 H6. rewrite H2 in Hb. rewrite H2, H6 in Hl.
  change (u32 (6 - 2)) with 4 in Hl.
  split; [ exact Hb | split; [ exact Hl | ] ].
  rewrite Ht, Hl; reflexivity.
Qed.

Lemma ImageViewInfo_ColorBuffer_slices_witness :
  exists info,
    ImageViewInfo_ColorBuffer Samples.host Samples.target_2_of_6 = Returned info /\
    layer (base (range info)) = 2 /\
    layers (extent (range info)) = 4 /\
    type info = e2DArray.
Proof.
  destruct (ImageViewInfo_ColorBuffer_slices Samples.host Samples.target_2_of_6
              eR8G8B8A8Unorm ltac:(simpl; lia) ltac:(simpl; lia) eq_refl)
    as (info & H & _ & _ & _ & _ & _ & _ & _ & Hsc).
  exists info; split; [ exact H | ].
  apply Hsc; reflexivity.
Defined.

(** C8, as stated, fails: a color target with [slice_start = 3] and two
    slices is built with arrayLayerCount 4294967295, which is not
    [NumSlices - slice_start] (that is -1), as a 2DArray view. *)
Lemma ImageViewInfo_ColorBuffer_slices_wrap :
  exists info,
    ImageViewInfo_ColorBuffer Samples.host Samples.target_3_of_2 = Returned info /\
    layers (extent (range info)) = 4294967295 /\
    layers (extent (range info))
      <> Liverpool.ColorBuffer.NumSlices Samples.target_3_of_2
         - Liverpool.ColorBuffer.view_slice_start Samples.target_3_of_2 /\
    type info = e2DArray.
Proof.
  eexists; split; [ reflexivity | ].
  split; [ reflexivity | split; [ discriminate | reflexivity ] ].
Qed.

(** ** View realization *)

Lemma image_view_ci_fields (E : Collaborators) (info : ImageViewInfo)
    (image : Image) (ci : ImageViewCreateInfo) :
  image_view_ci E info image = Returned ci ->
  GetSupportedFormat E (fst (view_format_aspect info image))
    (format_features image) = Returned (ci_format ci) /\
  aspectMask ci = snd (view_format_aspect info image) /\
  viewType ci = type info /\
  ci_image ci = VideoCore.image image.
Proof.
  unfold image_view_ci.
  destruct (view_format_aspect info image) as [f a]; simpl; intros H.
  returned H. injection H as <-; simpl.
  repeat split; reflexivity.
Qed.

(** C9 (as amended). For a physical image whose aspect mask includes Depth
    and a descriptor whose format is R32Sfloat, D32Sfloat, R16Unorm or
    D16Unorm, the view's format is overridden to the image's pixel format
    and its aspect to Depth only, as long as the stencil correction does not
    apply to that pixel format.  A descriptor with another format keeps its
    format and the image's whole aspect mask unless the image also has the
    Stencil aspect and the format is R8Uint or R8Unorm: then the format is
    the image's pixel format and the aspect is Stencil only.  The created
    view has that aspect, and as its format the device-supported format
    resolved for that format. *)
Theorem ImageView_depth_correction (E : Collaborators) (info : ImageViewInfo)
    (image : Image) :
  has_flag (aspect_mask image) ImageAspect_eDepth = true ->
  (In (format info) [eR32Sfloat; eD32Sfloat; eR16Unorm; eD16Unorm] ->
   has_flag (aspect_mask image) ImageAspect_eStencil = false \/
   ~ In (info_pixel_format image) [eR8Uint; eR8Unorm] ->
   view_format_aspect info image = (info_pixel_format image, ImageAspect_eDepth)) /\
  (~ In (format info) [eR32Sfloat; eD32Sfloat; eR16Unorm; eD16Unorm] ->
   view_format_aspect info image =
     if has_flag (aspect_mask image) ImageAspect_eStencil
        && ((format info =? eR8Uint) || (format info =? eR8Unorm))
     then (info_pixel_format image, ImageAspect_eStencil)
     else (format info, aspect_mask image)) /\
  (forall ci : ImageViewCreateInfo,
      image_view_ci E info image = Returned ci ->
      GetSupportedFormat E (fst (view_format_aspect info image))
        (format_features image) = Returned (ci_format ci) /\
      aspectMask ci = snd (view_format_aspect info image)).
Proof.
  intros Hd. split; [ | split ].
  - intros Hin Hst. unfold view_format_aspect. rewrite Hd.
    assert (Hf : (format info =? eR32Sfloat) || (format info =? eD32Sfloat)
                 || (format info =? eR16Unorm) || (format info =? eD16Unorm) = true).
    { simpl in Hin. destruct Hin as [<- | [<- | [<- | [<- | []]]]]; reflexivity. }
    rewrite Hf; simpl.
    destruct Hst as [Hst | Hst]; [ rewrite Hst; reflexivity | ].
    destruct (Z.eqb_spec (info_pixel_format image) eR8Uint) as [He | _];
      [ exfalso; apply Hst; simpl; auto | ].
    destruct (Z.eqb_spec (info_pixel_format image) eR8Unorm) as [He | _];
      [ exfalso; apply Hst; simpl; auto | ].
    rewrite andb_false_r; reflexivity.
  - intros Hnin. unfold view_format_aspect. rewrite Hd.
    assert (Hf : (format info =? eR32Sfloat) || (format info =? eD32Sfloat)
                 || (format info =? eR16Unorm) || (format info =? eD16Unorm) = false).
    { repeat rewrite orb_false_iff; repeat split; apply Z.eqb_neq;
        intros He; apply Hnin; simpl; auto. }
    rewrite Hf; simpl. reflexivity.
  - intros ci H.
    destruct (image_view_ci_fields E info image ci H) as (Hf & Ha & _).
    split; assumption.
Qed.

Lemma ImageView_depth_correction_witness :
  view_format_aspect (Samples.view_info eR16Unorm) Samples.depth_image
    = (eD16Unorm, ImageAspect_eDepth) /\
  view_format_aspect (Samples.view_info eR8G8B8A8Unorm) Samples.depth_image
    = (eR8G8B8A8Unorm, ImageAspect_eDepth) /\
  exists ci,
    image_view_ci Samples.host (Samples.view_info eR16Unorm) Samples.depth_image
      = Returned ci /\
    ci_format ci = eD16Unorm /\ aspectMask ci = ImageAspect_eDepth.
Proof.
  split; [ | split ].
  - destruct (ImageView_depth_correction Samples.host
                (Samples.view_info eR16Unorm) Samples.depth_image eq_refl)
      as (Hd & _ & _).
    apply Hd; [ simpl; auto | left; reflexivity ].
  - destruct (ImageView_depth_correction Samples.host
                (Samples.view_info eR8G8B8A8Unorm) Samples.depth_image eq_refl)
      as (_ & Hk & _).
    apply Hk. simpl; intros H; repeat destruct H as [H | H];
      try discriminate H; exact H.
  - eexists; split; [ reflexivity | ].
    destruct (ImageView_depth_correction Samples.host
                (Samples.view_info eR16Unorm) Samples.depth_image eq_refl)
      as (_ & _ & Hc).
    destruct (Hc _ eq_refl) as [Hf Ha].
    split; [ reflexivity | exact Ha ].
Defined.

(** C9, as stated, fails: on a depth-stencil image (aspect Depth|Stencil,
    allocated as D32SfloatS8Uint) a descriptor with format R8Uint, which is
    none of the four depth-aliasing formats, keeps neither its format nor
    the image's whole aspect mask: the view is the stencil plane in the
    image's pixel format. *)
Lemma ImageView_other_format_not_kept :
  has_flag (aspect_mask Samples.depth_stencil_image) ImageAspect_eDepth = true /\
  ~ In (format (Samples.view_info eR8Uint))
       [eR32Sfloat; eD32Sfloat; eR16Unorm; eD16Unorm] /\
  view_format_aspect (Samples.view_info eR8Uint) Samples.depth_stencil_image
    = (eD32SfloatS8Uint, ImageAspect_eStencil) /\
  view_format_aspect (Samples.view_info eR8Uint) Samples.depth_stencil_image
    <> (format (Samples.view_info eR8Uint), aspect_mask Samples.depth_stencil_image).
Proof.
  split; [ reflexivity | ].
  split; [ simpl; intros H; repeat destruct H as [H | H];
           try discriminate H; exact H | ].
  split; [ reflexivity | discriminate ].
Qed.





(** ** Quad lists to triangle lists *)

Import LiverpoolToVK.

Lemma u16_small (z : Z) : 0 <= z < 2 ^ 16 -> u16 z = z.
Proof. intros H; unfold u16; apply Z.mod_small; exact H. Qed.

Lemma quads_from_S (k m : nat) :
  quads_from k (S m) = quad_triangles (Z.of_nat k) ++ quads_from (S k) m.
Proof. reflexivity. Qed.

Lemma quads_from_length (k m : nat) : length (quads_from k m) = (6 * m)%nat.
Proof.
  revert k; induction m as [ | m IH]; intros k; [ reflexivity | ].
  rewrite quads_from_S, length_app, IH; simpl; lia.
Qed.

Lemma quads_from_bounds (k m : nat) :
  Forall (fun x => 4 * Z.of_nat k <= x < 4 * Z.of_nat (k + m)) (quads_from k m).
Proof.
  revert k; induction m as [ | m IH]; intros k; [ constructor | ].
  rewrite quads_from_S; apply Forall_app; split.
  - unfold quad_triangles; repeat (apply Forall_cons; [ lia | ]); apply Forall_nil.
  - eapply Forall_impl; [ | apply IH ]. cbv beta; intros x Hx; lia.
Qed.

Lemma quads_from_last (k m : nat) :
  In (4 * Z.of_nat (k + S m) - 1) (quads_from k (S m)).
Proof.
  revert k; induction m as [ | m IH]; intros k.
  - rewrite quads_from_S; apply in_or_app; left.
    replace (4 * Z.of_nat (k + 1) - 1) with (4 * Z.of_nat k + 3) by lia.
    simpl; auto 8.
  - rewrite quads_from_S; apply in_or_app; right.
    replace (k + S (S m))%nat with (S k + S m)%nat by lia. apply IH.
Qed.

Lemma num_quads_bounds (n : Z) : n <= 4 * num_quads n < n + 4.
Proof.
  unfold num_quads.
  pose proof (Z.div_mod (n + 3) 4 ltac:(lia)).
  pose proof (Z.mod_pos_bound (n + 3) 4 ltac:(lia)). lia.
Qed.

(** One iteration of the emitting loop at an in-range counter. *)
Lemma EmitQuadToTriangleListIndices_from_S (fuel : nat) (k : nat) (n : Z) :
  4 * Z.of_nat k < n -> 4 * Z.of_nat k + 4 < 2 ^ 16 ->
  EmitQuadToTriangleListIndices_from (S fuel) (4 * Z.of_nat k) n =
    match EmitQuadToTriangleListIndices_from fuel (4 * Z.of_nat (S k)) n with
    | Done rest => Done (quad_triangles (Z.of_nat k) ++ rest)
    | r => r
    end.
Proof.
  intros Hlt Hr; cbn [EmitQuadToTriangleListIndices_from].
  apply Z.ltb_lt in Hlt; rewrite Hlt.
  unfold NumVerticesPerQuad, quad_triangles.
  rewrite !u16_small by lia.
  replace (4 * Z.of_nat k + 4) with (4 * Z.of_nat (S k)) by lia.
  reflexivity.
Qed.

(** What a finished run of the emitting loop has written. *)
Lemma EmitQuadToTriangleListIndices_from_done (n : Z) (fuel k : nat) (idx : list Z) :
  n <= 65532 -> 4 * Z.of_nat k <= 65532 ->
  EmitQuadToTriangleListIndices_from fuel (4 * Z.of_nat k) n = Done idx ->
  idx = quads_from k (Z.to_nat (num_quads n) - k).
Proof.
  intros Hn; revert k idx; induction fuel as [ | fuel IH]; intros k idx Hk H.
  - discriminate H.
  - destruct (Z.ltb_spec (4 * Z.of_nat k) n) as [Hlt | Hge].
    + rewrite EmitQuadToTriangleListIndices_from_S in H by lia.
      destruct (EmitQuadToTriangleListIndices_from fuel (4 * Z.of_nat (S k)) n)
        as [rest | | ] eqn:Hrest; try discriminate H.
      injection H as <-.
      apply IH in Hrest; [ | lia ]. subst rest.
      pose proof (num_quads_bounds n) as Hq.
      replace (Z.to_nat (num_quads n) - k)%nat
        with (S (Z.to_nat (num_quads n) - S k)) by lia.
      rewrite quads_from_S; reflexivity.
    + cbn [EmitQuadToTriangleListIndices_from] in H.
      apply Z.ltb_ge in Hge; rewrite Hge in H. injection H as <-.
      pose proof (num_quads_bounds n) as Hq.
      replace (Z.to_nat (num_quads n) - k)%nat with 0%nat by lia.
      reflexivity.
Qed.

(** The emitting loop finishes within [num_quads n + 1] iterations. *)
Lemma EmitQuadToTriangleListIndices_from_finishes (n : Z) (m k fuel : nat) :
  n <= 65532 -> 4 * Z.of_nat k <= 65532 ->
  num_quads n <= Z.of_nat (k + m) -> (m < fuel)%nat ->
  exists idx, EmitQuadToTriangleListIndices_from fuel (4 * Z.of_nat k) n = Done idx.
Proof.
  intros Hn; revert k fuel; induction m as [ | m IH]; intros k fuel Hk Hq Hf.
  - destruct fuel as [ | fuel]; [ lia | ].
    assert (Hge : n <= 4 * Z.of_nat k).
    { pose proof (num_quads_bounds n). lia. }
    cbn [EmitQuadToTriangleListIndices_from].
    apply Z.ltb_ge in Hge; rewrite Hge. eexists; reflexivity.
  - destruct fuel as [ | fuel]; [ lia | ].
    destruct (Z.ltb_spec (4 * Z.of_nat k) n) as [Hlt | Hge].
    + rewrite EmitQuadToTriangleListIndices_from_S by lia.
      destruct (IH (S k) fuel) as [rest Hrest]; try lia.
      rewrite Hrest; eexists; reflexivity.
    + cbn [EmitQuadToTriangleListIndices_from].
      apply Z.ltb_ge in Hge; rewrite Hge. eexists; reflexivity.
Qed.

Lemma EmitQuadToTriangleListIndices_run (fuel : nat) (num_vertices : Z) :
  0 <= num_vertices <= 65532 ->
  num_quads num_vertices < Z.of_nat fuel ->
  EmitQuadToTriangleListIndices fuel num_vertices
    = Done (quads_from 0 (Z.to_nat (num_quads num_vertices))).
Proof.
  intros Hn Hf.
  pose proof (num_quads_bounds num_vertices) as Hq.
  destruct (EmitQuadToTriangleListIndices_from_finishes num_vertices
              (Z.to_nat (num_quads num_vertices)) 0 fuel) as [idx Hidx];
    try lia.
  unfold EmitQuadToTriangleListIndices.
  change 0 with (4 * Z.of_nat 0) at 1. rewrite Hidx. f_equal.
  apply EmitQuadToTriangleListIndices_from_done in Hidx; try lia.
  rewrite Nat.sub_0_r in Hidx; exact Hidx.
Qed.

Lemma EmitQuadToTriangleListIndices_done (fuel : nat) (num_vertices : Z)
    (idx : list Z) :
  0 <= num_vertices <= 65532 ->
  EmitQuadToTriangleListIndices fuel num_vertices = Done idx ->
  idx = quads_from 0 (Z.to_nat (num_quads num_vertices)).
Proof.
  intros Hn H. unfold EmitQuadToTriangleListIndices in H.
  change 0 with (4 * Z.of_nat 0) in H at 1.
  apply EmitQuadToTriangleListIndices_from_done in H; try lia.
  rewrite Nat.sub_0_r in H; exact H.
Qed.

Lemma quads_below_rounded (n : Z) :
  0 <= n ->
  Forall (fun x => 0 <= x < 4 * num_quads n) (quads_from 0 (Z.to_nat (num_quads n))).
Proof.
  intros Hn. pose proof (num_quads_bounds n) as Hq.
  eapply Forall_impl; [ | apply quads_from_bounds ].
  cbv beta; intros x Hx; lia.
Qed.

Lemma num_quads_exact (n : Z) : n mod 4 = 0 -> 4 * num_quads n = n.
Proof.
  intros Hm. unfold num_quads.
  pose proof (Z.div_mod n 4 ltac:(lia)).
  replace (n + 3) with (3 + (n / 4) * 4) by lia.
  rewrite Z.div_add by lia. change (3 / 4) with 0. lia.
Qed.

(** X1. For at most 65532 vertices the emitting loop finishes and writes,
    for each quad k = 0 .. ceil(n/4) - 1 in order, the six indices
    4k, 4k+1, 4k+2, 4k, 4k+2, 4k+3: six indices per started quad. *)
Theorem EmitQuadToTriangleListIndices_quads (fuel : nat) (num_vertices : Z) :
  0 <= num_vertices <= 65532 ->
  num_quads num_vertices < Z.of_nat fuel ->
  EmitQuadToTriangleListIndices fuel num_vertices
    = Done (quads_from 0 (Z.to_nat (num_quads num_vertices))) /\
  Z.of_nat (length (quads_from 0 (Z.to_nat (num_quads num_vertices))))
    = 6 * num_quads num_vertices.
Proof.
  intros Hn Hf.
  pose proof (num_quads_bounds num_vertices) as Hq.
  split.
  - apply EmitQuadToTriangleListIndices_run; assumption.
  - rewrite quads_from_length; lia.
Qed.

Lemma EmitQuadToTriangleListIndices_quads_witness :
  EmitQuadToTriangleListIndices 3 5
    = Done [0; 1; 2; 0; 2; 3; 4; 5; 6; 4; 6; 7].
Proof.
  apply (EmitQuadToTriangleListIndices_quads 3 5); vm_compute; intuition discriminate.
Defined.

(** X2. For at most 65532 vertices the emitting loop finishes, and every
    index it writes is below 4 * ceil(n/4).  When the number of vertices is
    a multiple of four they all are below it; otherwise the last quad is
    emitted whole and its last index, 4 * ceil(n/4) - 1, is written and is
    not below the number of vertices. *)
Theorem EmitQuadToTriangleListIndices_index_range (fuel : nat)
    (num_vertices : Z) :
  0 <= num_vertices <= 65532 ->
  num_quads num_vertices < Z.of_nat fuel ->
  exists idx,
    EmitQuadToTriangleListIndices fuel num_vertices = Done idx /\
    Forall (fun x => 0 <= x < 4 * num_quads num_vertices) idx /\
    (num_vertices mod 4 = 0 -> Forall (fun x => 0 <= x < num_vertices) idx) /\
    (num_vertices mod 4 <> 0 ->
     In (4 * num_quads num_vertices - 1) idx /\
     num_vertices <= 4 * num_quads num_vertices - 1).
Proof.
  intros Hn Hf.
  exists (quads_from 0 (Z.to_nat (num_quads num_vertices))).
  split; [ apply EmitQuadToTriangleListIndices_run; assumption | ].
  pose proof (num_quads_bounds num_vertices) as Hq.
  pose proof (quads_below_rounded num_vertices ltac:(lia)) as Hall.
  split; [ exact Hall | split ].
  - intros Hm. rewrite (num_quads_exact _ Hm) in Hall. exact Hall.
  - intros Hm.
    assert (Hlt : num_vertices < 4 * num_quads num_vertices).
    { unfold num_quads in *.
      pose proof (Z.div_mod num_vertices 4 ltac:(lia)).
      pose proof (Z.mod_pos_bound num_vertices 4 ltac:(lia)).
      pose proof (Z.div_mod (num_vertices + 3) 4 ltac:(lia)).
      pose proof (Z.mod_pos_bound (num_vertices + 3) 4 ltac:(lia)).
      assert (num_vertices / 4 < (num_vertices + 3) / 4); [ | lia ].
      apply Z.div_lt_upper_bound; lia. }
    split; [ | lia ].
    destruct (Z.to_nat (num_quads num_vertices)) as [ | m] eqn:Hm'; [ lia | ].
    replace (4 * num_quads num_vertices - 1)
      with (4 * Z.of_nat (0 + S m) - 1) by lia.
    apply quads_from_last.
Qed.

Lemma EmitQuadToTriangleListIndices_index_range_witness :
  exists idx,
    EmitQuadToTriangleListIndices 3 5 = Done idx /\
    Forall (fun x => 0 <= x < 8) idx /\
    In 7 idx /\ 5 <= 7.
Proof.
  destruct (EmitQuadToTriangleListIndices_index_range 3 5
              ltac:(lia) ltac:(vm_compute; reflexivity))
    as (idx & Hd & Ha & _ & Hl).
  exists idx; split; [ exact Hd | split; [ exact Ha | ] ].
  apply Hl; vm_compute; discriminate.
Defined.

(** The counter of the loops stays a multiple of four below 2^16. *)
Lemma u16_counter_step (i : Z) :
  0 <= i <= 65532 -> i mod 4 = 0 ->
  0 <= u16 (i + NumVerticesPerQuad) <= 65532 /\
  u16 (i + NumVerticesPerQuad) mod 4 = 0.
Proof.
  intros Hi Hm. unfold NumVerticesPerQuad.
  pose proof (Z.div_mod i 4 ltac:(lia)) as Hd.
  destruct (Z.eq_dec i 65532) as [-> | Hne].
  - vm_compute; intuition discriminate.
  - assert (Hi4 : i + 4 <= 65532) by lia.
    rewrite u16_small by lia. split; [ lia | ].
    replace (i + 4) with (i + 1 * 4) by lia. rewrite Z.mod_add by lia. exact Hm.
Qed.

Lemma EmitQuadToTriangleListIndices_from_runs_on (fuel : nat) (i n : Z) :
  65532 < n -> 0 <= i <= 65532 -> i mod 4 = 0 ->
  EmitQuadToTriangleListIndices_from fuel i n = OutOfFuel.
Proof.
  intros Hn; revert i; induction fuel as [ | fuel IH]; intros i Hi Hm.
  - reflexivity.
  - cbn [EmitQuadToTriangleListIndices_from].
    assert (Hlt : (i <? n) = true) by (apply Z.ltb_lt; lia).
    rewrite Hlt.
    destruct (u16_counter_step i Hi Hm) as [Hi' Hm'].
    rewrite (IH _ Hi' Hm'); reflexivity.
Qed.

(** X3. For more than 65532 vertices the emitting loop never finishes: its
    16-bit counter wraps to 0 after 65532 and stays below the number of
    vertices, whatever the number of iterations allowed. *)
Theorem EmitQuadToTriangleListIndices_never_finishes (fuel : nat)
    (num_vertices : Z) :
  65532 < num_vertices ->
  EmitQuadToTriangleListIndices fuel num_vertices = OutOfFuel.
Proof.
  intros Hn. apply EmitQuadToTriangleListIndices_from_runs_on;
    [ exact Hn | lia | reflexivity ].
Qed.

Lemma EmitQuadToTriangleListIndices_never_finishes_witness :
  EmitQuadToTriangleListIndices 100 65536 = OutOfFuel.
Proof.
  apply (EmitQuadToTriangleListIndices_never_finishes 100 65536); lia.
Defined.

Lemma in_data_at_nth (in_data : list Z) (k : Z) :
  0 <= k < Z.of_nat (length in_data) ->
  in_data_at in_data k = Some (nth (Z.to_nat k) in_data 0).
Proof.
  intros Hk; unfold in_data_at.
  assert (Hn : (k <? 0) = false) by (apply Z.ltb_ge; lia). rewrite Hn.
  apply nth_error_nth'; lia.
Qed.


(** The converting loop reads the input at the indices the emitting loop
    writes. *)
Lemma ConvertQuadToTriangleListIndices_from_emit (in_data : list Z) (n : Z)
    (fuel : nat) (i : Z) (idx : list Z) :
  0 <= i <= 65532 -> i mod 4 = 0 ->
  EmitQuadToTriangleListIndices_from fuel i n = Done idx ->
  Forall (fun x => 0 <= x < Z.of_nat (length in_data)) idx ->
  ConvertQuadToTriangleListIndices_from fuel in_data i n
    = Done (map (fun x => nth (Z.to_nat x) in_data 0) idx).
Proof.
  revert i idx; induction fuel as [ | fuel IH]; intros i idx Hi Hm H Hall.
  - discriminate H.
  - cbn [EmitQuadToTriangleListIndices_from] in H.
    cbn [ConvertQuadToTriangleListIndices_from].
    destruct (i <? n); [ | injection H as <-; reflexivity ].
    destruct (u16_counter_step i Hi Hm) as [Hi' Hm'].
    destruct (EmitQuadToTriangleListIndices_from fuel
                (u16 (i + NumVerticesPerQuad)) n) as [rest | | ] eqn:Hrest;
      try discriminate H.
    injection H as <-.
    rewrite !u16_small in Hall by lia.
    inversion_clear Hall as [ | ? ? H0 Hall1].
    inversion_clear Hall1 as [ | ? ? H1 Hall2].
    inversion_clear Hall2 as [ | ? ? H2 Hall3].
    inversion_clear Hall3 as [ | ? ? _ Hall4].
    inversion_clear Hall4 as [ | ? ? _ Hall5].
    inversion_clear Hall5 as [ | ? ? H3 Hrestall].
    rewrite (in_data_at_nth _ _ H0), (in_data_at_nth _ _ H1),
      (in_data_at_nth _ _ H2), (in_data_at_nth _ _ H3).
    rewrite (IH _ rest Hi' Hm' Hrest Hrestall).
    rewrite !u16_small by lia. reflexivity.
Qed.

(** X4. For a number of vertices that is a multiple of four, at most 65532
    and not more than the input holds, the converting loop finishes and its
    output is the input read at the indices the emitting loop writes
    (quad k gives in[4k], in[4k+1], in[4k+2], in[4k], in[4k+2], in[4k+3]);
    so every index it writes is one of the input. *)
Theorem ConvertQuadToTriangleListIndices_reads_emitted (fuel : nat)
    (in_data : list Z) (num_vertices : Z) :
  0 <= num_vertices <= 65532 ->
  num_vertices mod 4 = 0 ->
  num_vertices <= Z.of_nat (length in_data) ->
  num_quads num_vertices < Z.of_nat fuel ->
  exists out,
    ConvertQuadToTriangleListIndices fuel in_data num_vertices = Done out /\
    out = map (fun x => nth (Z.to_nat x) in_data 0)
              (quads_from 0 (Z.to_nat (num_quads num_vertices))) /\
    Z.of_nat (length out) = 6 * num_quads num_vertices /\
    Forall (fun y => In y in_data) out.
Proof.
  intros Hn Hm Hlen Hf.
  pose proof (EmitQuadToTriangleListIndices_run fuel num_vertices Hn Hf) as He.
  pose proof (quads_below_rounded num_vertices ltac:(lia)) as Hr.
  rewrite (num_quads_exact _ Hm) in Hr.
  pose proof (num_quads_bounds num_vertices) as Hq.
  assert (Hin : Forall (fun x => 0 <= x < Z.of_nat (length in_data))
                  (quads_from 0 (Z.to_nat (num_quads num_vertices)))).
  { eapply Forall_impl; [ | exact Hr ]. cbv beta; intros x Hx; lia. }
  eexists; split; [ | split; [ reflexivity | split ] ].
  - apply ConvertQuadToTriangleListIndices_from_emit;
      [ lia | reflexivity | exact He | exact Hin ].
  - rewrite length_map, quads_from_length; lia.
  - apply Forall_map. eapply Forall_impl; [ | exact Hin ].
    cbv beta; intros x Hx. apply nth_In; lia.
Qed.

Lemma ConvertQuadToTriangleListIndices_reads_emitted_witness :
  exists out,
    ConvertQuadToTriangleListIndices 2 [10; 11; 12; 13] 4 = Done out /\
    out = [10; 11; 12; 10; 12; 13].
Proof.
  destruct (ConvertQuadToTriangleListIndices_reads_emitted 2 [10; 11; 12; 13] 4)
    as (out & Hc & Ho & _); try (vm_compute; intuition discriminate).
  exists out; split; [ exact Hc | exact Ho ].
Defined.




(** ** More on the view descriptor builders and on view realization *)

Lemma land_pow2 (m k : Z) :
  0 <= k -> Z.land m (2 ^ k) = if Z.testbit m k then 2 ^ k else 0.
Proof.
  intros Hk. apply Z.bits_inj'; intros n Hn.
  rewrite Z.land_spec, Z.pow2_bits_eqb by exact Hk.
  destruct (Z.eqb_spec k n) as [<- | Hne].
  - destruct (Z.testbit m k); simpl.
    + rewrite Z.pow2_bits_true by exact Hk; reflexivity.
    + rewrite Z.bits_0; reflexivity.
  - rewrite andb_false_r.
    destruct (Z.testbit m k).
    + rewrite Z.pow2_bits_false by (try exact Hk; exact Hne). reflexivity.
    + rewrite Z.bits_0; reflexivity.
Qed.

Lemma has_flag_subset (m k : Z) :
  0 <= k -> has_flag m (2 ^ k) = true -> Z.land (2 ^ k) m = 2 ^ k.
Proof.
  intros Hk; unfold has_flag. rewrite (Z.land_comm (2 ^ k) m).
  rewrite land_pow2 by exact Hk.
  destruct (Z.testbit m k); [ reflexivity | simpl; discriminate ].
Qed.

(** X6. Whatever the descriptor and the image, the aspect of a view is the
    image's aspect mask or one single plane (Depth, Stencil) that the image
    has, never a plane outside the image's aspect mask; and the format of
    the view is the descriptor's unless the aspect was narrowed, in which
    case it is the image's pixel format. *)
Theorem view_format_aspect_within_image (info : ImageViewInfo) (image : Image) :
  Z.land (snd (view_format_aspect info image)) (aspect_mask image)
    = snd (view_format_aspect info image) /\
  (view_format_aspect info image = (format info, aspect_mask image) \/
   view_format_aspect info image = (info_pixel_format image, ImageAspect_eDepth) /\
   has_flag (aspect_mask image) ImageAspect_eDepth = true \/
   view_format_aspect info image = (info_pixel_format image, ImageAspect_eStencil) /\
   has_flag (aspect_mask image) ImageAspect_eStencil = true).
Proof.
  unfold view_format_aspect.
  destruct (has_flag (aspect_mask image) ImageAspect_eDepth) eqn:Hd;
    destruct (has_flag (aspect_mask image) ImageAspect_eStencil) eqn:Hs;
    cbn [andb];
    repeat match goal with
           | |- context [ if ?b then _ else _ ] => destruct b
           end;
    cbn [snd];
    (split;
     [ first [ apply Z.land_diag
             | apply (has_flag_subset _ 1); [ lia | exact Hd ]
             | apply (has_flag_subset _ 2); [ lia | exact Hs ] ]
     | auto ]).
Qed.

(** X7. The stencil correction: for an image whose aspect mask includes
    Stencil and a descriptor of format R8Uint or R8Unorm, the view is the
    stencil plane in the image's pixel format, whether or not the image has
    a depth plane too; the created view has the Stencil aspect and the
    device-supported format resolved for the pixel format. *)
Theorem ImageView_stencil_correction (E : Collaborators) (info : ImageViewInfo)
    (image : Image) :
  has_flag (aspect_mask image) ImageAspect_eStencil = true ->
  format info = eR8Uint \/ format info = eR8Unorm ->
  view_format_aspect info image = (info_pixel_format image, ImageAspect_eStencil) /\
  (forall ci : ImageViewCreateInfo,
      image_view_ci E info image = Returned ci ->
      aspectMask ci = ImageAspect_eStencil /\
      GetSupportedFormat E (info_pixel_format image) (format_features image)
        = Returned (ci_format ci)).
Proof.
  intros Hs Hf.
  assert (Hv : view_format_aspect info image
               = (info_pixel_format image, ImageAspect_eStencil)).
  { unfold view_format_aspect. rewrite Hs.
    destruct Hf as [-> | ->];
      destruct (has_flag (aspect_mask image) ImageAspect_eDepth); reflexivity. }
  split; [ exact Hv | ].
  intros ci Hci.
  destruct (image_view_ci_fields E info image ci Hci) as (Hfmt & Ha & _).
  rewrite Hv in Hfmt, Ha. split; [ exact Ha | exact Hfmt ].
Qed.

Lemma ImageView_stencil_correction_witness :
  view_format_aspect (Samples.view_info eR8Uint) Samples.depth_stencil_image
    = (eD32SfloatS8Uint, ImageAspect_eStencil).
Proof.
  apply (ImageView_stencil_correction Samples.host (Samples.view_info eR8Uint)
           Samples.depth_stencil_image);
    [ reflexivity | left; reflexivity ].
Defined.






Lemma ImageViewInfo_Image_base (E : Collaborators) (image : AmdGpu.Image)
    (desc : Shader.ImageResource) (info : ImageViewInfo) :
  ImageViewInfo_Image E image desc = Returned info ->
  level (base (range info)) = u32 (base_level image) /\
  layer (base (range info)) = u32 (base_array image) /\
  mapping info =
    (if negb (IsStorage E desc image)
     then ComponentMapping_of E (DstSelect image) else default_mapping).
Proof.
  unfold ImageViewInfo_Image; intros H.
  returned H.
  destruct (ImageViewType_eqb a1 eCube), (Shader.is_array desc);
    injection H as <-; repeat split; reflexivity.
Qed.

(** X9. Every view descriptor built from a generic image has its four range
    members within 32 bits; its type is CubeArray exactly when the image is
    bound as a cube and the shader asks for an array; a Cube view has at
    most 6 layers and a 3D view at most 1. *)
Theorem ImageViewInfo_Image_invariants (E : Collaborators) (image : AmdGpu.Image)
    (desc : Shader.ImageResource) (info : ImageViewInfo) :
  ImageViewInfo_Image E image desc = Returned info ->
  (0 <= level (base (range info)) < 2 ^ 32 /\
   0 <= layer (base (range info)) < 2 ^ 32 /\
   0 <= levels (extent (range info)) < 2 ^ 32 /\
   0 <= layers (extent (range info)) < 2 ^ 32) /\
  (type info = eCubeArray <->
   GetBoundType E image = Cube /\ Shader.is_array desc = true) /\
  (type info = eCube -> layers (extent (range info)) <= 6) /\
  (type info = e3D -> layers (extent (range info)) <= 1).
Proof.
  intros H.
  destruct (ImageViewInfo_Image_base E image desc info H) as (Hbl & Hba & _).
  pose proof (ImageViewInfo_Image_levels E image desc info H) as Hl.
  destruct (ImageViewInfo_Image_layers E image desc info H) as (ty & Hty & Hy).
  cbv zeta in Hy.
  pose proof (u32_range (base_level image)).
  pose proof (u32_range (base_array image)).
  pose proof (u32_range (last_level image - base_level image + 1)).
  pose proof (u32_range (last_array image - base_array image + 1)) as Hn.
  apply ConvertImageViewType_returned in Hty as Hin.
  split; [ | split; [ | split ] ].
  - rewrite Hbl, Hba, Hl.
    repeat split; try lia.
    + destruct (_ || _); lia.
    + destruct (_ || _); lia.
    + destruct ty; try (destruct Hy as [_ ->]; lia).
      * destruct Hy as [_ ->]; destruct (1 <? _); lia.
      * destruct (Shader.is_array desc); destruct Hy as [_ ->];
          [ | rewrite std_min_spec ]; lia.
    + destruct ty; try (destruct Hy as [_ ->]; lia).
      * destruct Hy as [_ ->]; destruct (1 <? _); lia.
      * destruct (Shader.is_array desc); destruct Hy as [_ ->];
          [ | rewrite std_min_spec ]; lia.
  - split.
    + intros Ht.
      destruct ty; try (destruct Hy as [Hy _]; congruence).
      * destruct (Shader.is_array desc) eqn:Ha;
          [ | destruct Hy as [Hy _]; congruence ].
        split; [ | reflexivity ].
        destruct (GetBoundType E image); simpl in Hty; congruence.
      * simpl in Hin.
        repeat destruct Hin as [Hin | Hin]; try discriminate Hin; contradiction.
    + intros [Hb Ha]. rewrite Hb in Hty; injection Hty as <-.
      rewrite Ha in Hy; destruct Hy as [Hy _]; exact Hy.
  - intros Ht.
    destruct ty; try (destruct Hy as [Hy _]; congruence).
    destruct (Shader.is_array desc); destruct Hy as [Hy ->];
      [ congruence | rewrite std_min_spec; lia ].
  - intros Ht.
    destruct ty; try (destruct Hy as [Hy _]; congruence).
    + destruct Hy as [_ ->].
      destruct (Z.ltb_spec 1 (u32 (last_array image - base_array image + 1))); lia.
    + destruct (Shader.is_array desc); destruct Hy as [Hy _]; congruence.
Qed.

Lemma ImageViewInfo_Image_invariants_witness :
  exists info,
    ImageViewInfo_Image Samples.host Samples.cube_twelve Samples.sampled
      = Returned info /\
    type info = eCube /\ layers (extent (range info)) <= 6.
Proof.
  eexists; split; [ reflexivity | ].
  destruct (ImageViewInfo_Image_invariants Samples.host Samples.cube_twelve
              Samples.sampled _ eq_refl) as (_ & _ & Hc & _).
  split; [ reflexivity | apply Hc; reflexivity ].
Defined.








(** X13. No format that [PromoteFormatToDepth] returns is one it accepts:
    promoting an already promoted format reaches [UNREACHABLE()]. *)
Theorem PromoteFormatToDepth_not_twice (fmt d : Format) :
  PromoteFormatToDepth fmt = Returned d ->
  PromoteFormatToDepth d = Terminated UnreachableCode.
Proof.
  intros H. apply PromoteFormatToDepth_returned in H. simpl in H.
  destruct H as [H | [H | [H | [H | []]]]]; injection H as _ <-; reflexivity.
Qed.

Lemma PromoteFormatToDepth_not_twice_witness :
  PromoteFormatToDepth eD32Sfloat = Terminated UnreachableCode.
Proof.
  apply (PromoteFormatToDepth_not_twice eR32Sfloat eD32Sfloat); reflexivity.
Defined.



(** ** The game controller's ring of states *)

Section ControllerProperties.
Import Input.

Variable MAX_STATES : Z.
Variable State_default : State.
Variables TriggerLeft TriggerRight : Z.
Variables L2 R2 : Z.
Hypothesis MAX_STATES_range : 0 < MAX_STATES < 2 ^ 31.

Local Abbreviation GetLastState := (Input.GetLastState MAX_STATES).
Local Abbreviation AddState := (Input.AddState MAX_STATES).
Local Abbreviation ReadStates := (Input.ReadStates MAX_STATES).
Local Abbreviation ReadStates_loop := (Input.ReadStates_loop MAX_STATES).
Local Abbreviation CheckButton := (Input.CheckButton MAX_STATES).
Local Abbreviation Axis := (Input.Axis MAX_STATES TriggerLeft TriggerRight L2 R2).
Local Abbreviation Poll := (Input.Poll MAX_STATES).
Local Abbreviation ring_ok := (Input.ring_ok MAX_STATES).
Local Abbreviation window := (Input.window MAX_STATES).
Local Abbreviation pending := (Input.pending MAX_STATES).
Local Abbreviation step := (Input.step MAX_STATES TriggerLeft TriggerRight L2 R2).
Local Abbreviation reachable :=
  (Input.reachable MAX_STATES State_default TriggerLeft TriggerRight L2 R2).

Lemma array_set_same {A : Type} (a : Z -> A) (index : Z) (x : A) :
  array_set a index x index = x.
Proof. unfold array_set; rewrite Z.eqb_refl; reflexivity. Qed.

Lemma array_set_other {A : Type} (a : Z -> A) (index k : Z) (x : A) :
  k <> index -> array_set a index x k = a k.
Proof.
  intros H; unfold array_set. apply Z.eqb_neq in H; rewrite H; reflexivity.
Qed.

(** The members of the controller after [AddState]. *)
Lemma AddState_members (c : GameController) (state : State) :
  ring_ok c ->
  let first' := if MAX_STATES <=? m_states_num c
                then (m_first_state c + 1) mod MAX_STATES else m_first_state c in
  let num' := if MAX_STATES <=? m_states_num c
              then MAX_STATES else m_states_num c + 1 in
  let index := (first' + num' - 1) mod MAX_STATES in
  m_first_state (AddState c state) = first' /\
  m_states_num (AddState c state) = num' /\
  m_last_state (AddState c state) = state /\
  m_states (AddState c state) = array_set (m_states c) index state /\
  m_private_obtained (AddState c state)
    = array_set (m_private_obtained c) index false /\
  m_connected (AddState c state) = m_connected c /\
  m_connected_count (AddState c state) = m_connected_count c.
Proof.
  intros [Hf Hn]. unfold Input.AddState; cbn [m_first_state m_states_num
    m_last_state m_states m_private_obtained m_connected m_connected_count].
  pose proof (Z.mod_pos_bound (m_first_state c + 1) MAX_STATES ltac:(lia)) as Hm.
  destruct (Z.leb_spec MAX_STATES (m_states_num c)) as [Hfull | Hroom].
  - rewrite (u32_small (MAX_STATES - 1)) by lia.
    rewrite (u32_small (m_first_state c + 1)) by lia.
    rewrite (u32_small (MAX_STATES - 1 + 1)) by lia.
    rewrite (u32_small (_ + (MAX_STATES - 1))) by lia.
    replace (MAX_STATES - 1 + 1) with MAX_STATES by lia.
    replace ((m_first_state c + 1) mod MAX_STATES + MAX_STATES - 1)
      with ((m_first_state c + 1) mod MAX_STATES + (MAX_STATES - 1)) by lia.
    repeat split; reflexivity.
  - rewrite (u32_small (m_states_num c + 1)) by lia.
    rewrite (u32_small (m_first_state c + m_states_num c)) by lia.
    replace (m_first_state c + (m_states_num c + 1) - 1)
      with (m_first_state c + m_states_num c) by lia.
    repeat split; reflexivity.
Qed.

Lemma GetLastState_members (c : GameController) :
  ring_ok c ->
  GetLastState c =
    if m_states_num c =? 0 then m_last_state c
    else m_states c ((m_first_state c + m_states_num c - 1) mod MAX_STATES).
Proof.
  intros [Hf Hn]. unfold Input.GetLastState.
  destruct (Z.eqb_spec (m_states_num c) 0) as [ | Hne]; [ reflexivity | ].
  rewrite u32_small by lia. reflexivity.
Qed.

Lemma AddState_ring_ok (c : GameController) (state : State) :
  ring_ok c ->
  ring_ok (AddState c state) /\
  1 <= m_states_num (AddState c state) /\
  m_states_num c <= m_states_num (AddState c state).
Proof.
  intros Hok. destruct (AddState_members c state Hok) as (Hf & Hn & _).
  cbv zeta in Hf, Hn. destruct Hok as [Hfr Hnr].
  unfold Input.ring_ok. rewrite Hf, Hn.
  pose proof (Z.mod_pos_bound (m_first_state c + 1) MAX_STATES ltac:(lia)).
  destruct (Z.leb_spec MAX_STATES (m_states_num c)); lia.
Qed.

Lemma AddState_last (c : GameController) (state : State) :
  ring_ok c -> GetLastState (AddState c state) = state.
Proof.
  intros Hok.
  destruct (AddState_ring_ok c state Hok) as (Hok' & H1 & _).
  rewrite (GetLastState_members _ Hok').
  destruct (AddState_members c state Hok) as (Hf & Hn & _ & Hs & _).
  cbv zeta in Hf, Hn, Hs.
  destruct (Z.eqb_spec (m_states_num (AddState c state)) 0) as [H0 | _]; [ lia | ].
  rewrite Hs, Hf, Hn. apply array_set_same.
Qed.

(** X15. What [AddState] queues is what [GetLastState] returns next, and it
    is the new [m_last_state]; the ring stays in range and is not empty
    afterwards. *)
Theorem AddState_GetLastState (c : GameController) (state : State) :
  ring_ok c ->
  GetLastState (AddState c state) = state /\
  m_last_state (AddState c state) = state /\
  ring_ok (AddState c state) /\
  1 <= m_states_num (AddState c state).
Proof.
  intros Hok.
  destruct (AddState_ring_ok c state Hok) as (Hok' & H1 & _).
  destruct (AddState_members c state Hok) as (_ & _ & Hl & _).
  split; [ apply AddState_last; exact Hok | ].
  split; [ exact Hl | split; assumption ].
Qed.

(** *** The window of queued states *)

Lemma mod_inj_range (a b : Z) :
  a mod MAX_STATES = b mod MAX_STATES -> Z.abs (a - b) < MAX_STATES -> a = b.
Proof.
  intros Hm Hlt.
  pose proof (Z.div_mod a MAX_STATES ltac:(lia)) as Ha.
  pose proof (Z.div_mod b MAX_STATES ltac:(lia)) as Hb.
  assert (Hd : a - b = MAX_STATES * (a / MAX_STATES - b / MAX_STATES)) by lia.
  assert (Hq : a / MAX_STATES - b / MAX_STATES = 0) by nia.
  lia.
Qed.

Lemma window_range_NoDup (first : Z) (i n : nat) :
  Z.of_nat n <= MAX_STATES ->
  NoDup (map (fun j => (first + Z.of_nat j) mod MAX_STATES) (seq i n)).
Proof.
  intros Hn. apply NoDup_map_NoDup_ForallPairs; [ | apply seq_NoDup ].
  intros x y Hx Hy Heq. apply in_seq in Hx, Hy.
  apply mod_inj_range in Heq; lia.
Qed.

Lemma window_NoDup (c : GameController) : ring_ok c -> NoDup (window c).
Proof. intros [_ Hn]. apply window_range_NoDup; lia. Qed.

Lemma window_below (c : GameController) (index : Z) :
  In index (window c) -> 0 <= index < MAX_STATES.
Proof.
  unfold Input.window; intros H. apply in_map_iff in H as (j & <- & _).
  apply Z.mod_pos_bound; lia.
Qed.

(** *** The loop of [ReadStates] *)

(** The indices the loop visits from counter [i] on, for [n] iterations. *)
Lemma ReadStates_loop_spec (n i : nat) (states_num : Z) (c : GameController)
    (out : list State) :
  0 <= m_first_state c < MAX_STATES ->
  Z.of_nat (i + n) <= MAX_STATES ->
  let visited := map (fun j => (m_first_state c + Z.of_nat j) mod MAX_STATES)
                     (seq i n) in
  let taken := firstn (Z.to_nat (states_num - Z.of_nat (length out)))
                 (filter (fun index => negb (m_private_obtained c index)) visited) in
  let c' := fst (ReadStates_loop n (Z.of_nat i) states_num c out) in
  snd (ReadStates_loop n (Z.of_nat i) states_num c out)
    = out ++ map (m_states c) taken /\
  m_connected c' = m_connected c /\
  m_connected_count c' = m_connected_count c /\
  m_states_num c' = m_states_num c /\
  m_first_state c' = m_first_state c /\
  m_last_state c' = m_last_state c /\
  m_states c' = m_states c /\
  (forall index,
      m_private_obtained c' index
        = m_private_obtained c index || existsb (Z.eqb index) taken).
Proof.
  intros Hf. revert i c out Hf.
  induction n as [ | n IH]; intros i c out Hf Hin; cbv zeta.
  - cbn [Input.ReadStates_loop seq map filter fst snd].
    rewrite firstn_nil, app_nil_r.
    repeat split; try reflexivity.
    intros index; rewrite orb_false_r; reflexivity.
  - cbn [Input.ReadStates_loop seq map filter].
    destruct (Z.leb_spec states_num (Z.of_nat (length out))) as [Hroom | Hroom].
    + replace (Z.to_nat (states_num - Z.of_nat (length out))) with 0%nat by lia.
      cbn [firstn map fst snd existsb]. rewrite app_nil_r.
      repeat split; try reflexivity.
      intros index; rewrite orb_false_r; reflexivity.
    + rewrite (u32_small (m_first_state c + Z.of_nat i)) by lia.
      set (w := (m_first_state c + Z.of_nat i) mod MAX_STATES).
      replace (Z.of_nat i + 1) with (Z.of_nat (S i)) by lia.
      assert (Hnd : NoDup (w :: map (fun j => (m_first_state c + Z.of_nat j)
                                               mod MAX_STATES) (seq (S i) n))).
      { apply (window_range_NoDup (m_first_state c) i (S n)); lia. }
      apply NoDup_cons_iff in Hnd as [Hw _].
      destruct (m_private_obtained c w) eqn:Hob; cbn [negb].
      * apply (IH (S i) c out Hf); lia.
      * specialize (IH (S i) (set_obtained c w) (out ++ [m_states c w])).
        cbn [set_obtained m_first_state m_states m_private_obtained
             m_connected m_connected_count m_states_num m_last_state] in IH.
        specialize (IH Hf ltac:(lia)). cbv zeta in IH.
        assert (Hfilter :
          filter (fun index => negb (array_set (m_private_obtained c) w true index))
            (map (fun j => (m_first_state c + Z.of_nat j) mod MAX_STATES)
                 (seq (S i) n))
          = filter (fun index => negb (m_private_obtained c index))
              (map (fun j => (m_first_state c + Z.of_nat j) mod MAX_STATES)
                   (seq (S i) n))).
        { apply filter_ext_in; intros k Hk.
          rewrite array_set_other; [ reflexivity | ].
          intros ->; contradiction. }
        rewrite Hfilter in IH.
        rewrite length_app in IH; cbn [length] in IH.
        replace (Z.to_nat (states_num - Z.of_nat (length out)))
          with (S (Z.to_nat (states_num - Z.of_nat (length out + 1)))) by lia.
        cbn [firstn map existsb].
        destruct IH as (Hout & Hc1 & Hc2 & Hc3 & Hc4 & Hc5 & Hc6 & Hpriv).
        rewrite Hout, <- app_assoc.
        repeat split; try assumption; try reflexivity.
        intros index. rewrite Hpriv. unfold array_set.
        destruct (index =? w); [ | reflexivity ].
        rewrite orb_true_r; reflexivity.
Qed.

Lemma filter_orb_taken (obtained : Z -> bool) (taken l : list Z) :
  filter (fun index => negb (obtained index || existsb (Z.eqb index) taken)) l
  = filter (fun index => negb (existsb (Z.eqb index) taken))
      (filter (fun index => negb (obtained index)) l).
Proof.
  induction l as [ | a l IH]; [ reflexivity | ].
  cbn [filter]. destruct (obtained a); cbn [orb negb filter].
  - exact IH.
  - destruct (existsb (Z.eqb a) taken); cbn [negb]; rewrite IH; reflexivity.
Qed.

Lemma filter_all (l : list Z) : filter (fun _ => true) l = l.
Proof. induction l as [ | a l IH]; cbn [filter]; congruence. Qed.

Lemma filter_not_taken (l : list Z) (r : nat) :
  NoDup l ->
  filter (fun index => negb (existsb (Z.eqb index) (firstn r l))) l = skipn r l.
Proof.
  revert r; induction l as [ | a l IH]; intros r Hnd.
  - destruct r; reflexivity.
  - apply NoDup_cons_iff in Hnd as [Ha Hnd].
    destruct r as [ | r].
    + cbn [firstn existsb negb skipn]. apply filter_all.
    + cbn [firstn existsb skipn filter]. rewrite Z.eqb_refl; cbn [orb negb].
      rewrite <- (IH r Hnd). apply filter_ext_in; intros k Hk.
      assert (Hne : (k =? a) = false) by (apply Z.eqb_neq; intros ->; contradiction).
      rewrite Hne; reflexivity.
Qed.

(** [ReadStates] on a connected pad with queued states. *)
Lemma ReadStates_queued (c : GameController) (states_num : Z) :
  m_connected c = true -> ring_ok c -> 0 < m_states_num c ->
  let r := ReadStates c states_num in
  states r = firstn (Z.to_nat states_num) (pending c) /\
  m_states_num (controller r) = m_states_num c /\
  m_first_state (controller r) = m_first_state c /\
  m_last_state (controller r) = m_last_state c /\
  m_states (controller r) = m_states c /\
  m_connected (controller r) = m_connected c /\
  pending (controller r) = skipn (Z.to_nat states_num) (pending c).
Proof.
  intros Hc [Hf Hn] Hpos; cbv zeta.
  unfold Input.ReadStates. rewrite Hc.
  assert (H0 : (m_states_num c =? 0) = false) by (apply Z.eqb_neq; lia).
  rewrite H0.
  pose proof (ReadStates_loop_spec (Z.to_nat (m_states_num c)) 0 states_num c []
                Hf ltac:(lia)) as Hloop.
  cbv zeta in Hloop. cbn [length Z.of_nat] in Hloop.
  rewrite Z.sub_0_r in Hloop.
  destruct (ReadStates_loop (Z.to_nat (m_states_num c)) 0 states_num c [])
    as [c' out] eqn:Hrun.
  cbn [fst snd app] in Hloop.
  destruct Hloop as (Hout & Hcn & _ & Hnum & Hfirst & Hlast & Hst & Hpriv).
  cbn [states controller].
  fold (window c) in Hout, Hpriv.
  split.
  { rewrite Hout. unfold Input.pending. rewrite firstn_map. reflexivity. }
  repeat (split; [ congruence | ]).
  unfold Input.pending, Input.window. rewrite Hnum, Hfirst, Hst.
  fold (window c).
  rewrite (filter_ext (fun index => negb (m_private_obtained c' index))
             (fun index => negb (m_private_obtained c index
                                 || existsb (Z.eqb index)
                                      (firstn (Z.to_nat states_num)
                                         (filter (fun index =>
                                                    negb (m_private_obtained c index))
                                                 (window c))))))
    by (intros index; rewrite Hpriv; reflexivity).
  rewrite filter_orb_taken, filter_not_taken.
  - symmetry; apply skipn_map.
  - apply NoDup_filter, window_NoDup; split; assumption.
Qed.

Lemma pending_length (c : GameController) :
  0 <= m_states_num c -> Z.of_nat (length (pending c)) <= m_states_num c.
Proof.
  intros Hn. unfold Input.pending, Input.window.
  rewrite length_map.
  pose proof (filter_length_le
                (fun index => negb (m_private_obtained c index))
                (map (fun i => (m_first_state c + Z.of_nat i) mod MAX_STATES)
                     (seq 0 (Z.to_nat (m_states_num c))))) as Hle.
  rewrite length_map, length_seq in Hle. lia.
Qed.

(** X16. On a connected pad with queued states, [ReadStates] hands out the
    states not handed out before, oldest first, and at most [states_num] of
    them; those it did not reach stay pending, in order, and the queue
    itself (its states, its length, what [GetLastState] returns) is left
    as it was. *)
Theorem ReadStates_oldest_first (c : GameController) (states_num : Z) :
  m_connected c = true -> ring_ok c -> 0 < m_states_num c ->
  states (ReadStates c states_num) = firstn (Z.to_nat states_num) (pending c) /\
  pending (controller (ReadStates c states_num))
    = skipn (Z.to_nat states_num) (pending c) /\
  0 <= ret_num (ReadStates c states_num) <= Z.max 0 states_num /\
  ret_num (ReadStates c states_num) <= m_states_num c /\
  m_states_num (controller (ReadStates c states_num)) = m_states_num c /\
  GetLastState (controller (ReadStates c states_num)) = GetLastState c.
Proof.
  intros Hc Hok Hpos.
  destruct (ReadStates_queued c states_num Hc Hok Hpos)
    as (Hs & Hn & Hf & Hl & Hst & _ & Hp).
  pose proof (pending_length c ltac:(destruct Hok; lia)) as Hlen.
  assert (Hr : ret_num (ReadStates c states_num)
               = Z.of_nat (length (states (ReadStates c states_num)))).
  { unfold Input.ReadStates.
    destruct (if m_connected c then _ else _); reflexivity. }
  rewrite Hr, Hs, length_firstn.
  split; [ reflexivity | ]. split; [ exact Hp | ].
  split; [ lia | ]. split; [ lia | ]. split; [ exact Hn | ].
  unfold Input.GetLastState. rewrite Hn, Hf, Hl, Hst. reflexivity.
Qed.

(** X17. A state is handed out once: after a [ReadStates] with room for
    every queued state nothing is pending, and the next [ReadStates]
    returns no state at all. *)
Theorem ReadStates_hands_out_once (c : GameController) (states_num again : Z) :
  m_connected c = true -> ring_ok c -> 0 < m_states_num c ->
  m_states_num c <= states_num ->
  pending (controller (ReadStates c states_num)) = [] /\
  states (ReadStates (controller (ReadStates c states_num)) again) = [] /\
  ret_num (ReadStates (controller (ReadStates c states_num)) again) = 0.
Proof.
  intros Hc Hok Hpos Hroom.
  destruct (ReadStates_queued c states_num Hc Hok Hpos)
    as (_ & Hn & Hf & _ & _ & Hcn & Hp).
  pose proof (pending_length c ltac:(destruct Hok; lia)) as Hlen.
  assert (Hnil : pending (controller (ReadStates c states_num)) = []).
  { rewrite Hp. apply skipn_all2. lia. }
  assert (Hok' : ring_ok (controller (ReadStates c states_num))).
  { unfold Input.ring_ok. rewrite Hn, Hf. exact Hok. }
  destruct (ReadStates_queued (controller (ReadStates c states_num)) again)
    as (Hs & _); [ congruence | exact Hok' | lia | ].
  assert (Hs' : states (ReadStates (controller (ReadStates c states_num)) again) = []).
  { rewrite Hs, Hnil. apply firstn_nil. }
  split; [ exact Hnil | split; [ exact Hs' | ] ].
  assert (Hr : forall r room, ret_num (ReadStates r room)
               = Z.of_nat (length (states (ReadStates r room)))).
  { intros r room. unfold Input.ReadStates.
    destruct (if m_connected r then _ else _); reflexivity. }
  rewrite Hr, Hs'; reflexivity.
Qed.

(** *** What [AddState] does to the queue *)

Lemma pending_after_store (c c' : GameController) (W : list Z) (index : Z)
    (state : State) :
  window c' = W ++ [index] -> ~ In index W ->
  m_states c' = array_set (m_states c) index state ->
  m_private_obtained c' = array_set (m_private_obtained c) index false ->
  pending c'
    = map (m_states c) (filter (fun k => negb (m_private_obtained c k)) W)
      ++ [state].
Proof.
  intros Hw Hni Hs Hp. unfold Input.pending. rewrite Hw, Hs, Hp.
  rewrite filter_app, map_app. cbn [filter].
  rewrite array_set_same; cbn [negb map]. rewrite array_set_same.
  f_equal.
  rewrite (filter_ext_in
             (fun k => negb (array_set (m_private_obtained c) index false k))
             (fun k => negb (m_private_obtained c k))).
  - apply map_ext_in; intros k Hk. apply filter_In in Hk as [Hk _].
    apply array_set_other; intros ->; contradiction.
  - intros k Hk. rewrite array_set_other; [ reflexivity | ].
    intros ->; contradiction.
Qed.

Lemma AddState_window_room (c : GameController) (state : State) :
  ring_ok c -> m_states_num c < MAX_STATES ->
  window (AddState c state)
    = window c ++ [(m_first_state c + m_states_num c) mod MAX_STATES].
Proof.
  intros Hok Hroom.
  destruct (AddState_members c state Hok) as (Hf & Hn & _).
  cbv zeta in Hf, Hn. destruct Hok as [Hfr Hnr].
  assert (Hfull : (MAX_STATES <=? m_states_num c) = false)
    by (apply Z.leb_gt; exact Hroom).
  rewrite Hfull in Hf, Hn.
  unfold Input.window. rewrite Hf, Hn.
  replace (Z.to_nat (m_states_num c + 1)) with (S (Z.to_nat (m_states_num c)))
    by lia.
  rewrite seq_S, map_app. cbn [map]. do 3 f_equal. lia.
Qed.

Lemma AddState_window_full (c : GameController) (state : State) :
  ring_ok c -> m_states_num c = MAX_STATES ->
  window c = m_first_state c :: tl (window c) /\
  window (AddState c state) = tl (window c) ++ [m_first_state c].
Proof.
  intros Hok Hfull.
  destruct (AddState_members c state Hok) as (Hf & Hn & _).
  cbv zeta in Hf, Hn. destruct Hok as [Hfr Hnr].
  assert (Hle : (MAX_STATES <=? m_states_num c) = true)
    by (apply Z.leb_le; lia).
  rewrite Hle in Hf, Hn.
  unfold Input.window. rewrite Hf, Hn, Hfull.
  destruct (Z.to_nat MAX_STATES) as [ | m] eqn:Hm; [ lia | ].
  assert (Htl : tl (map (fun i => (m_first_state c + Z.of_nat i) mod MAX_STATES)
                        (seq 0 (S m)))
                = map (fun i => ((m_first_state c + 1) mod MAX_STATES + Z.of_nat i)
                                mod MAX_STATES) (seq 0 m)).
  { cbn [seq map tl]. rewrite <- seq_shift, map_map.
    apply map_ext; intros i. rewrite Zplus_mod_idemp_l. f_equal; lia. }
  split.
  - cbn [seq map tl]. f_equal.
    rewrite Z.add_0_r. apply Z.mod_small; lia.
  - rewrite Htl, seq_S, map_app. cbn [map]. do 2 f_equal.
    rewrite Zplus_mod_idemp_l.
    replace (m_first_state c + 1 + Z.of_nat (0 + m))
      with (m_first_state c + 1 * MAX_STATES) by lia.
    rewrite Z.mod_add by lia. apply Z.mod_small; lia.
Qed.

Lemma AddState_pending_room (c : GameController) (state : State) :
  ring_ok c -> m_states_num c < MAX_STATES ->
  pending (AddState c state) = pending c ++ [state].
Proof.
  intros Hok Hroom.
  pose proof (AddState_window_room c state Hok Hroom) as Hw.
  destruct (AddState_members c state Hok) as (_ & _ & _ & Hs & Hp & _).
  cbv zeta in Hs, Hp.
  assert (Hfull : (MAX_STATES <=? m_states_num c) = false)
    by (apply Z.leb_gt; exact Hroom).
  rewrite Hfull in Hs, Hp.
  replace (m_first_state c + (m_states_num c + 1) - 1)
    with (m_first_state c + m_states_num c) in Hs, Hp by lia.
  assert (Hni : ~ In ((m_first_state c + m_states_num c) mod MAX_STATES) (window c)).
  { destruct (AddState_ring_ok c state Hok) as (Hok' & _).
    pose proof (window_NoDup _ Hok') as Hnd. rewrite Hw in Hnd.
    apply NoDup_remove_2 in Hnd. rewrite app_nil_r in Hnd. exact Hnd. }
  exact (pending_after_store c _ _ _ state Hw Hni Hs Hp).
Qed.

(** X18. While the ring has room, [AddState] appends: the states pending
    for [ReadStates] afterwards are those pending before, followed by the
    new one, and no queued state is overwritten. *)
Theorem AddState_appends (c : GameController) (state : State) :
  ring_ok c -> m_states_num c < MAX_STATES ->
  pending (AddState c state) = pending c ++ [state] /\
  m_states_num (AddState c state) = m_states_num c + 1 /\
  m_first_state (AddState c state) = m_first_state c /\
  (forall index, In index (window c) ->
     m_states (AddState c state) index = m_states c index).
Proof.
  intros Hok Hroom.
  pose proof (AddState_window_room c state Hok Hroom) as Hw.
  destruct (AddState_members c state Hok) as (Hf & Hn & _ & Hs & Hp & _).
  cbv zeta in Hf, Hn, Hs, Hp.
  assert (Hfull : (MAX_STATES <=? m_states_num c) = false)
    by (apply Z.leb_gt; exact Hroom).
  rewrite Hfull in Hf, Hn, Hs, Hp.
  replace (m_first_state c + (m_states_num c + 1) - 1)
    with (m_first_state c + m_states_num c) in Hs, Hp by lia.
  assert (Hni : ~ In ((m_first_state c + m_states_num c) mod MAX_STATES) (window c)).
  { destruct (AddState_ring_ok c state Hok) as (Hok' & _).
    pose proof (window_NoDup _ Hok') as Hnd. rewrite Hw in Hnd.
    apply NoDup_remove_2 in Hnd. rewrite app_nil_r in Hnd. exact Hnd. }
  split; [ exact (pending_after_store c _ _ _ state Hw Hni Hs Hp) | ].
  split; [ exact Hn | split; [ exact Hf | ] ].
  intros index Hin. rewrite Hs. apply array_set_other.
  intros ->; contradiction.
Qed.

(** X19. On a full ring [AddState] overwrites the oldest queued state,
    handed out or not: the new state takes its slot, the first index moves
    on by one (modulo [MAX_STATES]), the length stays [MAX_STATES], and the
    states pending afterwards are those pending among the other slots,
    followed by the new one. *)
Theorem AddState_full_drops_oldest (c : GameController) (state : State) :
  ring_ok c -> m_states_num c = MAX_STATES ->
  m_states (AddState c state) (m_first_state c) = state /\
  m_first_state (AddState c state) = (m_first_state c + 1) mod MAX_STATES /\
  m_states_num (AddState c state) = MAX_STATES /\
  pending (AddState c state)
    = map (m_states c)
          (filter (fun k => negb (m_private_obtained c k)) (tl (window c)))
      ++ [state] /\
  (forall index, index <> m_first_state c ->
     m_states (AddState c state) index = m_states c index).
Proof.
  intros Hok Hfull.
  destruct (AddState_window_full c state Hok Hfull) as [Hwc Hw].
  destruct (AddState_members c state Hok) as (Hf & Hn & _ & Hs & Hp & _).
  cbv zeta in Hf, Hn, Hs, Hp.
  assert (Hle : (MAX_STATES <=? m_states_num c) = true)
    by (apply Z.leb_le; lia).
  rewrite Hle in Hf, Hn, Hs, Hp.
  assert (Hidx : ((m_first_state c + 1) mod MAX_STATES + MAX_STATES - 1)
                 mod MAX_STATES = m_first_state c).
  { destruct Hok as [Hfr _].
    replace ((m_first_state c + 1) mod MAX_STATES + MAX_STATES - 1)
      with ((m_first_state c + 1) mod MAX_STATES + (MAX_STATES - 1)) by lia.
    rewrite Zplus_mod_idemp_l.
    replace (m_first_state c + 1 + (MAX_STATES - 1))
      with (m_first_state c + 1 * MAX_STATES) by lia.
    rewrite Z.mod_add by lia. apply Z.mod_small; lia. }
  rewrite Hidx in Hs, Hp.
  assert (Hni : ~ In (m_first_state c) (tl (window c))).
  { pose proof (window_NoDup _ Hok) as Hnd. rewrite Hwc in Hnd.
    apply NoDup_cons_iff in Hnd as [Hni _]. exact Hni. }
  split; [ rewrite Hs; apply array_set_same | ].
  split; [ exact Hf | split; [ exact Hn | ] ].
  split; [ exact (pending_after_store c _ _ _ state Hw Hni Hs Hp) | ].
  intros index Hne. rewrite Hs. apply array_set_other; exact Hne.
Qed.

(** *** Edge cases of [ReadStates] *)

Lemma ReadStates_keeps_ring (c : GameController) (states_num : Z) :
  ring_ok c ->
  m_states_num (controller (ReadStates c states_num)) = m_states_num c /\
  m_first_state (controller (ReadStates c states_num)) = m_first_state c /\
  m_last_state (controller (ReadStates c states_num)) = m_last_state c /\
  m_states (controller (ReadStates c states_num)) = m_states c.
Proof.
  intros Hok.
  destruct (m_connected c) eqn:Hc.
  - destruct (Z.eqb_spec (m_states_num c) 0) as [H0 | Hne].
    + unfold Input.ReadStates. rewrite Hc, H0. cbn. rewrite H0.
      repeat split; reflexivity.
    + destruct (ReadStates_queued c states_num Hc Hok)
        as (_ & Hn & Hf & Hl & Hs & _); [ destruct Hok; lia | ].
      repeat split; assumption.
  - unfold Input.ReadStates. rewrite Hc. cbn. repeat split; reflexivity.
Qed.

(** X20. The two edges of [ReadStates].  On a pad that is not connected it
    returns no state and changes nothing.  On a connected pad with nothing
    queued it writes [m_last_state] to [states[0]] and returns 1 whatever
    [states_num] is, also when [states_num] is 0 or negative; with states
    queued and [states_num <= 0] it returns no state and marks none. *)
Theorem ReadStates_edges (c : GameController) (states_num : Z) :
  (m_connected c = false ->
   states (ReadStates c states_num) = [] /\
   ret_num (ReadStates c states_num) = 0 /\
   isConnected (ReadStates c states_num) = false /\
   controller (ReadStates c states_num) = c) /\
  (m_connected c = true -> m_states_num c = 0 ->
   states (ReadStates c states_num) = [m_last_state c] /\
   ret_num (ReadStates c states_num) = 1 /\
   controller (ReadStates c states_num) = c) /\
  (m_connected c = true -> ring_ok c -> 0 < m_states_num c ->
   states_num <= 0 ->
   states (ReadStates c states_num) = [] /\
   ret_num (ReadStates c states_num) = 0 /\
   pending (controller (ReadStates c states_num)) = pending c).
Proof.
  split; [ | split ].
  - intros Hc. unfold Input.ReadStates. rewrite Hc. cbn.
    repeat split; reflexivity.
  - intros Hc H0. unfold Input.ReadStates. rewrite Hc, H0. cbn.
    repeat split; reflexivity.
  - intros Hc Hok Hpos Hroom.
    destruct (ReadStates_queued c states_num Hc Hok Hpos)
      as (Hs & _ & _ & _ & _ & _ & Hp).
    replace (Z.to_nat states_num) with 0%nat in Hs, Hp by lia.
    cbn [firstn skipn] in Hs, Hp.
    split; [ exact Hs | split; [ | exact Hp ] ].
    assert (Hr : ret_num (ReadStates c states_num)
                 = Z.of_nat (length (states (ReadStates c states_num)))).
    { unfold Input.ReadStates.
      destruct (if m_connected c then _ else _); reflexivity. }
    rewrite Hr, Hs; reflexivity.
Qed.

(** *** Buttons, axes and polling *)

Lemma CheckButton_last (c : GameController) (now button : Z) (is_pressed : bool) :
  ring_ok c ->
  GetLastState (CheckButton c now button is_pressed) =
    {| time := now;
       buttonsState :=
         if is_pressed then Z.lor (buttonsState (GetLastState c)) button
         else Z.ldiff (buttonsState (GetLastState c)) button;
       axes := axes (GetLastState c);
       other_members := other_members (GetLastState c) |}.
Proof. intros Hok. unfold Input.CheckButton. apply AddState_last; exact Hok. Qed.

(** X21. [CheckButton] queues a copy of the last state stamped with the
    process time in which every bit of the button mask is set (pressed) or
    cleared (released) and every other button bit, the axes and the other
    members are kept. *)
Theorem CheckButton_bits (c : GameController) (now button : Z) (is_pressed : bool) :
  ring_ok c ->
  time (GetLastState (CheckButton c now button is_pressed)) = now /\
  axes (GetLastState (CheckButton c now button is_pressed))
    = axes (GetLastState c) /\
  other_members (GetLastState (CheckButton c now button is_pressed))
    = other_members (GetLastState c) /\
  (forall k,
      Z.testbit (buttonsState (GetLastState (CheckButton c now button is_pressed))) k
      = if Z.testbit button k then is_pressed
        else Z.testbit (buttonsState (GetLastState c)) k).
Proof.
  intros Hok. rewrite (CheckButton_last c now button is_pressed Hok).
  cbn [time axes other_members buttonsState].
  repeat split. intros k.
  destruct is_pressed.
  - rewrite Z.lor_spec. destruct (Z.testbit button k);
      [ apply orb_true_r | apply orb_false_r ].
  - rewrite Z.ldiff_spec. destruct (Z.testbit button k); cbn [negb];
      [ apply andb_false_r | apply andb_true_r ].
Qed.

Lemma Axis_last (c : GameController) (now axis value : Z) :
  ring_ok c ->
  GetLastState (Axis c now axis value) =
    {| time := now;
       buttonsState :=
         (let buttons := buttonsState (GetLastState c) in
          let buttons :=
            if axis =? TriggerLeft then
              if 0 <? value then Z.lor buttons L2 else Z.ldiff buttons L2
            else buttons in
          if axis =? TriggerRight then
            if 0 <? value then Z.lor buttons R2 else Z.ldiff buttons R2
          else buttons);
       axes := array_set (axes (GetLastState c)) axis value;
       other_members := other_members (GetLastState c) |}.
Proof. intros Hok. unfold Input.Axis. apply AddState_last; exact Hok. Qed.

(** X22. [Axis] queues a copy of the last state with the axis set to the
    value and the other axes kept.  The left trigger axis sets every bit of
    the L2 mask when the value is positive and clears it otherwise, the
    right trigger axis does so with R2, and every other button bit is
    kept; any other axis leaves the buttons alone. *)
Theorem Axis_triggers (c : GameController) (now axis value : Z) :
  ring_ok c -> TriggerLeft <> TriggerRight ->
  axes (GetLastState (Axis c now axis value)) axis = value /\
  (forall other, other <> axis ->
     axes (GetLastState (Axis c now axis value)) other
       = axes (GetLastState c) other) /\
  (axis = TriggerLeft -> forall k,
     Z.testbit (buttonsState (GetLastState (Axis c now axis value))) k
     = if Z.testbit L2 k then 0 <? value
       else Z.testbit (buttonsState (GetLastState c)) k) /\
  (axis = TriggerRight -> forall k,
     Z.testbit (buttonsState (GetLastState (Axis c now axis value))) k
     = if Z.testbit R2 k then 0 <? value
       else Z.testbit (buttonsState (GetLastState c)) k) /\
  (axis <> TriggerLeft -> axis <> TriggerRight ->
   buttonsState (GetLastState (Axis c now axis value))
     = buttonsState (GetLastState c)).
Proof.
  intros Hok Hlr. rewrite (Axis_last c now axis value Hok).
  cbn [axes buttonsState]. cbv zeta.
  split; [ apply array_set_same | ].
  split; [ intros other Hne; apply array_set_other; exact Hne | ].
  assert (Hbits : forall old mask k,
            Z.testbit (if 0 <? value then Z.lor old mask else Z.ldiff old mask) k
            = if Z.testbit mask k then 0 <? value else Z.testbit old k).
  { intros old mask k. destruct (0 <? value).
    - rewrite Z.lor_spec. destruct (Z.testbit mask k);
        [ apply orb_true_r | apply orb_false_r ].
    - rewrite Z.ldiff_spec. destruct (Z.testbit mask k); cbn [negb];
        [ apply andb_false_r | apply andb_true_r ]. }
  split; [ | split ].
  - intros -> k. rewrite Z.eqb_refl.
    assert (Hne : (TriggerLeft =? TriggerRight) = false)
      by (apply Z.eqb_neq; exact Hlr).
    rewrite Hne. apply Hbits.
  - intros -> k. rewrite Z.eqb_refl.
    assert (Hne : (TriggerRight =? TriggerLeft) = false)
      by (apply Z.eqb_neq; congruence).
    rewrite Hne. apply Hbits.
  - intros Hl Hr. apply Z.eqb_neq in Hl, Hr. rewrite Hl, Hr. reflexivity.
Qed.

Lemma Poll_cases (c : GameController) (now : Z) :
  fst (Poll c now) = c \/ fst (Poll c now) = AddState c (GetLastState c).
Proof.
  unfold Input.Poll; cbn [fst].
  destruct (m_connected c); [ | left; reflexivity ].
  destruct (m_states_num c =? 0).
  - destruct (100 <=? _); [ right | left ]; reflexivity.
  - destruct (_ && _); [ right | left ]; reflexivity.
Qed.

(** X23. [Poll] returns 100 and never changes what [GetLastState] returns:
    it leaves a pad that is not connected alone, and otherwise queues at
    most one copy of the last state.  When the newest queued state has been
    handed out and is at least 100000 time units old (and the ring has
    room), that copy is queued and is pending for the next [ReadStates]. *)
Theorem Poll_requeues_last (c : GameController) (now : Z) :
  ring_ok c ->
  snd (Poll c now) = 100 /\
  GetLastState (fst (Poll c now)) = GetLastState c /\
  ring_ok (fst (Poll c now)) /\
  (m_connected c = false -> fst (Poll c now) = c) /\
  (m_connected c = true -> 0 < m_states_num c < MAX_STATES ->
   m_private_obtained c
     ((m_first_state c + m_states_num c - 1) mod MAX_STATES) = true ->
   100 <= u64 (now - time (GetLastState c)) / 1000 ->
   pending (fst (Poll c now)) = pending c ++ [GetLastState c]).
Proof.
  intros Hok.
  split; [ reflexivity | ].
  split.
  { destruct (Poll_cases c now) as [-> | ->];
      [ reflexivity | apply AddState_last; exact Hok ]. }
  split.
  { destruct (Poll_cases c now) as [-> | ->];
      [ exact Hok | apply AddState_ring_ok; exact Hok ]. }
  split.
  { intros Hc. unfold Input.Poll. rewrite Hc. reflexivity. }
  intros Hc Hn Hob Hdiff.
  assert (Hp : fst (Poll c now) = AddState c (GetLastState c)).
  { rewrite (GetLastState_members c Hok) in Hdiff.
    unfold Input.Poll; cbn [fst]. rewrite Hc.
    assert (H0 : (m_states_num c =? 0) = false) by (apply Z.eqb_neq; lia).
    rewrite H0 in *.
    destruct Hok as [Hf _].
    rewrite (u32_small (m_first_state c - 1 + m_states_num c)) by lia.
    replace (m_first_state c - 1 + m_states_num c)
      with (m_first_state c + m_states_num c - 1) by lia.
    rewrite Hob. apply Z.leb_le in Hdiff. rewrite Hdiff. reflexivity. }
  rewrite Hp. apply AddState_pending_room; [ exact Hok | lia ].
Qed.

(** *** Every controller a constructed object can become *)

Lemma step_keeps_ring (c c' : GameController) :
  step c c' -> ring_ok c -> GetLastState c = m_last_state c ->
  ring_ok c' /\ GetLastState c' = m_last_state c' /\
  m_states_num c <= m_states_num c'.
Proof.
  intros Hstep Hok Hlast.
  assert (Hadd : forall state,
            ring_ok (AddState c state) /\
            GetLastState (AddState c state) = m_last_state (AddState c state) /\
            m_states_num c <= m_states_num (AddState c state)).
  { intros state.
    destruct (AddState_ring_ok c state Hok) as (Hok' & _ & Hle).
    destruct (AddState_members c state Hok) as (_ & _ & Hl & _).
    rewrite Hl, (AddState_last c state Hok).
    split; [ exact Hok' | split; [ reflexivity | exact Hle ] ]. }
  inversion Hstep as [c1 state | c1 states_num | c1 now button is_pressed
                     | c1 now axis value | c1 now]; subst.
  - apply Hadd.
  - destruct (ReadStates_keeps_ring c states_num Hok) as (Hn & Hf & Hl & Hs).
    unfold Input.ring_ok, Input.GetLastState. rewrite Hn, Hf, Hl, Hs.
    split; [ exact Hok | split; [ exact Hlast | lia ] ].
  - apply Hadd.
  - apply Hadd.
  - destruct (Poll_cases c now) as [-> | ->];
      [ split; [ exact Hok | split; [ exact Hlast | lia ] ] | apply Hadd ].
Qed.

Lemma reachable_invariant (c0 c : GameController) :
  0 <= m_first_state c0 < MAX_STATES ->
  reachable c0 c ->
  ring_ok c /\ GetLastState c = m_last_state c.
Proof.
  intros Hf Hreach. induction Hreach as [ | c c' _ IH Hstep].
  - split; [ | reflexivity ].
    unfold Input.ring_ok, GameController_ctor; cbn. lia.
  - destruct IH as [Hok Hlast].
    destruct (step_keeps_ring c c' Hstep Hok Hlast) as (Hok' & Hlast' & _).
    split; assumption.
Qed.

(** X24. In every controller that a constructed object can become through
    [AddState], [ReadStates], [CheckButton], [Axis] and [Poll], the first
    index is below [MAX_STATES], at most [MAX_STATES] states are queued,
    and [GetLastState] returns [m_last_state]. *)
Theorem reachable_ring_ok (c0 c : GameController) :
  0 <= m_first_state c0 < MAX_STATES ->
  reachable c0 c ->
  ring_ok c /\ GetLastState c = m_last_state c.
Proof. exact (reachable_invariant c0 c). Qed.

(** X25. No member function takes a state out of the ring: along any call
    the number of queued states does not decrease, so once a state has been
    queued the ring is never empty again ([ReadStates] only marks states as
    handed out). *)
Theorem step_never_shrinks (c0 c c' : GameController) :
  0 <= m_first_state c0 < MAX_STATES ->
  reachable c0 c -> step c c' ->
  m_states_num c <= m_states_num c' <= MAX_STATES /\
  (0 < m_states_num c -> 0 < m_states_num c').
Proof.
  intros Hf Hreach Hstep.
  destruct (reachable_invariant c0 c Hf Hreach) as [Hok Hlast].
  destruct (step_keeps_ring c c' Hstep Hok Hlast) as ([_ Hn] & _ & Hle).
  lia.
Qed.

End ControllerProperties.

(** *** The ring of a four-state pad *)

Lemma pad_range : 0 < PadSamples.MAX_STATES < 2 ^ 31.
Proof. unfold PadSamples.MAX_STATES; lia. Qed.

Lemma connected_pad_ring_ok :
  Input.ring_ok PadSamples.MAX_STATES PadSamples.connected_pad.
Proof. unfold Input.ring_ok, PadSamples.MAX_STATES; cbn; lia. Qed.

Lemma AddState_GetLastState_witness :
  Input.ring_ok PadSamples.MAX_STATES PadSamples.connected_pad /\
  Input.GetLastState PadSamples.MAX_STATES
    (Input.AddState PadSamples.MAX_STATES PadSamples.connected_pad
       (PadSamples.at_time 5))
  = PadSamples.at_time 5.
Proof.
  split; [ exact connected_pad_ring_ok | ].
  apply (AddState_GetLastState PadSamples.MAX_STATES pad_range
           PadSamples.connected_pad (PadSamples.at_time 5)
           connected_pad_ring_ok).
Defined.

Ltac pad_ring_ok :=
  unfold Input.ring_ok; vm_compute; intuition discriminate.

Lemma ReadStates_oldest_first_witness :
  Input.states (Input.ReadStates PadSamples.MAX_STATES PadSamples.two_queued 1)
    = [PadSamples.at_time 5] /\
  Input.pending PadSamples.MAX_STATES
    (Input.controller
       (Input.ReadStates PadSamples.MAX_STATES PadSamples.two_queued 1))
    = [PadSamples.at_time 9].
Proof.
  destruct (ReadStates_oldest_first PadSamples.MAX_STATES pad_range
              PadSamples.two_queued 1) as (Hs & Hp & _);
    [ reflexivity | pad_ring_ok | reflexivity | ].
  split; [ exact Hs | exact Hp ].
Defined.

Lemma ReadStates_hands_out_once_witness :
  Input.states
    (Input.ReadStates PadSamples.MAX_STATES
       (Input.controller
          (Input.ReadStates PadSamples.MAX_STATES PadSamples.two_queued 2)) 2)
    = [].
Proof.
  destruct (ReadStates_hands_out_once PadSamples.MAX_STATES pad_range
              PadSamples.two_queued 2 2) as (_ & Hs & _);
    [ reflexivity | pad_ring_ok | reflexivity | vm_compute; discriminate | ].
  exact Hs.
Defined.

Lemma AddState_appends_witness :
  Input.pending PadSamples.MAX_STATES
    (Input.AddState PadSamples.MAX_STATES PadSamples.one_queued
       (PadSamples.at_time 9))
    = [PadSamples.at_time 5; PadSamples.at_time 9].
Proof.
  destruct (AddState_appends PadSamples.MAX_STATES pad_range
              PadSamples.one_queued (PadSamples.at_time 9)) as (Hp & _);
    [ pad_ring_ok | reflexivity | ].
  exact Hp.
Defined.

Lemma AddState_full_drops_oldest_witness :
  Input.pending PadSamples.MAX_STATES
    (Input.AddState PadSamples.MAX_STATES PadSamples.full_ring
       (PadSamples.at_time 50))
    = [PadSamples.at_time 2; PadSamples.at_time 3; PadSamples.at_time 4;
       PadSamples.at_time 50] /\
  Input.m_first_state
    (Input.AddState PadSamples.MAX_STATES PadSamples.full_ring
       (PadSamples.at_time 50)) = 1.
Proof.
  destruct (AddState_full_drops_oldest PadSamples.MAX_STATES pad_range
              PadSamples.full_ring (PadSamples.at_time 50))
    as (_ & Hf & _ & Hp & _); [ pad_ring_ok | reflexivity | ].
  split; [ exact Hp | exact Hf ].
Defined.

Lemma ReadStates_edges_witness :
  Input.states (Input.ReadStates PadSamples.MAX_STATES PadSamples.connected_pad 0)
    = [PadSamples.idle] /\
  Input.ret_num (Input.ReadStates PadSamples.MAX_STATES PadSamples.connected_pad 0)
    = 1 /\
  Input.ret_num (Input.ReadStates PadSamples.MAX_STATES PadSamples.unconstructed 8)
    = 0 /\
  Input.states (Input.ReadStates PadSamples.MAX_STATES PadSamples.two_queued 0)
    = [].
Proof.
  destruct (ReadStates_edges PadSamples.MAX_STATES pad_range
              PadSamples.connected_pad 0) as (_ & He & _).
  destruct (He eq_refl eq_refl) as (Hs & Hr & _).
  destruct (ReadStates_edges PadSamples.MAX_STATES pad_range
              PadSamples.unconstructed 8) as (Hu & _).
  destruct (Hu eq_refl) as (_ & Hr0 & _).
  destruct (ReadStates_edges PadSamples.MAX_STATES pad_range
              PadSamples.two_queued 0) as (_ & _ & Hz).
  destruct Hz as (Hs0 & _);
    [ reflexivity | pad_ring_ok | reflexivity | vm_compute; discriminate | ].
  split; [ exact Hs | split; [ exact Hr | split; [ exact Hr0 | exact Hs0 ] ] ].
Defined.

Lemma CheckButton_bits_witness :
  Z.testbit
    (Input.buttonsState
       (Input.GetLastState PadSamples.MAX_STATES
          (Input.CheckButton PadSamples.MAX_STATES PadSamples.connected_pad 7
             PadSamples.Cross true))) 14 = true.
Proof.
  destruct (CheckButton_bits PadSamples.MAX_STATES pad_range
              PadSamples.connected_pad 7 PadSamples.Cross true
              connected_pad_ring_ok) as (_ & _ & _ & Hb).
  exact (Hb 14).
Defined.

Lemma Axis_triggers_witness :
  Z.testbit
    (Input.buttonsState
       (Input.GetLastState PadSamples.MAX_STATES
          (Input.Axis PadSamples.MAX_STATES PadSamples.TriggerLeft
             PadSamples.TriggerRight PadSamples.L2 PadSamples.R2
             PadSamples.connected_pad 7 PadSamples.TriggerLeft 200))) 8 = true.
Proof.
  destruct (Axis_triggers PadSamples.MAX_STATES PadSamples.TriggerLeft
              PadSamples.TriggerRight PadSamples.L2 PadSamples.R2 pad_range
              PadSamples.connected_pad 7 PadSamples.TriggerLeft 200
              connected_pad_ring_ok ltac:(discriminate))
    as (_ & _ & Hl & _).
  exact (Hl eq_refl 8).
Defined.

Lemma Poll_requeues_last_witness :
  Input.pending PadSamples.MAX_STATES PadSamples.one_read = [] /\
  Input.pending PadSamples.MAX_STATES
    (fst (Input.Poll PadSamples.MAX_STATES PadSamples.one_read 100005))
    = [PadSamples.at_time 5].
Proof.
  split; [ reflexivity | ].
  destruct (Poll_requeues_last PadSamples.MAX_STATES pad_range
              PadSamples.one_read 100005) as (_ & _ & _ & _ & Hp);
    [ pad_ring_ok | ].
  apply Hp;
    [ reflexivity | vm_compute; intuition discriminate | reflexivity
    | vm_compute; discriminate ].
Defined.

Lemma reachable_ring_ok_witness :
  Input.ring_ok PadSamples.MAX_STATES
    (Input.AddState PadSamples.MAX_STATES
       (Input.GameController_ctor PadSamples.idle PadSamples.unconstructed)
       (PadSamples.at_time 5)).
Proof.
  apply (reachable_ring_ok PadSamples.MAX_STATES PadSamples.idle
           PadSamples.TriggerLeft PadSamples.TriggerRight PadSamples.L2
           PadSamples.R2 pad_range PadSamples.unconstructed).
  - vm_compute; intuition discriminate.
  - eapply Input.reachable_step;
      [ apply Input.reachable_ctor | apply Input.step_AddState ].
Defined.

Lemma step_never_shrinks_witness :
  Input.m_states_num
    (Input.GameController_ctor PadSamples.idle PadSamples.unconstructed)
  <= Input.m_states_num
       (Input.AddState PadSamples.MAX_STATES
          (Input.GameController_ctor PadSamples.idle PadSamples.unconstructed)
          (PadSamples.at_time 5))
  <= PadSamples.MAX_STATES.
Proof.
  apply (step_never_shrinks PadSamples.MAX_STATES PadSamples.idle
           PadSamples.TriggerLeft PadSamples.TriggerRight PadSamples.L2
           PadSamples.R2 pad_range PadSamples.unconstructed).
  - vm_compute; intuition discriminate.
  - apply Input.reachable_ctor.
  - apply Input.step_AddState.
Defined.
